(** * DungeonGenFHE: the batch / decryption-callback state machine

    A shallow embedding of the Solidity contract [DungeonGenFHE]
    (the contract text that closes [frontend/web/src/App.tsx]) and the
    properties of its access control, rate limiting, batch ledger, seed
    generation and decryption callback.

    Conventions of the embedding:
    - [uint256], [address], [bytes32] and the ciphertext handles are [N];
      Solidity 0.8 arithmetic is checked, so an addition that leaves the
      256-bit range reverts with a panic instead of wrapping;
    - a [mapping(K => V)] is a [gmap] read with the Solidity zero value as
      default;
    - a call either reverts with an [Error] (no state is produced, so the
      caller keeps the state it had) or returns the new state together with
      the events it emitted;
    - the FHE library, keccak256 and the signature check of the decryption
      oracle are not part of the contract: they are the fields of
      [External].

    The second part of the file embeds the pure functions of the React
    component of the same file (the stand-in encryption of numbers, the
    packing of the attributes, the generation of a dungeon); its
    conventions are given there. *)

From Stdlib Require Import NArith ZArith Bool List Lia.
From Stdlib Require Import Floats.PrimFloat Floats.FloatOps Floats.FloatAxioms.
From Stdlib Require Import Numbers.Cyclic.Int63.Uint63.
From Stdlib Require Import Strings.String Strings.Ascii.
From Stdlib Require Import Numbers.DecimalString Numbers.DecimalPos Numbers.DecimalN.
From stdpp Require Import base option list gmap.
Import ListNotations.

Local Open Scope N_scope.

(** ** Machine integers *)

Abbreviation address := N (only parsing).
Abbreviation uint256 := N (only parsing).
Abbreviation bytes32 := N (only parsing).
Abbreviation bytes := (list Byte.byte) (only parsing).

Definition MAX_UINT256 : N := 2 ^ 256 - 1.

(** ** Errors and results *)

Inductive Error : Set :=
  | NotOwner
  | NotProvider
  | Paused
  | CooldownActive
  | BatchClosed
  | ReplayAttempt
  | StateMismatch
  | InvalidBatchId
  | PanicOverflow        (* Panic(0x11): checked arithmetic left uint256 *)
  | InvalidSignatures    (* FHE.checkSignatures reverted *)
  | DecodeError.         (* abi.decode reverted *)

Inductive Result (A : Type) : Type :=
  | Ok (a : A)
  | Err (e : Error).
Arguments Ok {A} a.
Arguments Err {A} e.

Definition bind {A B : Type} (r : Result A) (k : A -> Result B) : Result B :=
  match r with
  | Ok a => k a
  | Err e => Err e
  end.

Notation "'do' x <~ r 'in' k" := (bind r (fun x => k))
  (at level 10, x pattern, r at level 100, k at level 200).
Notation "'check' r 'in' k" := (bind r (fun _ : unit => k))
  (at level 10, r at level 100, k at level 200).

(** [if (c) revert e();] *)
Definition revert_if (c : bool) (e : Error) : Result unit :=
  if c then Err e else Ok tt.

(** Checked [a + b] on [uint256]. *)
Definition checked_add (a b : uint256) : Result uint256 :=
  if a + b <=? MAX_UINT256 then Ok (a + b) else Err PanicOverflow.

(** ** Storage *)

Record DecryptionContext : Set := mkDecryptionContext {
  batchId : uint256;
  stateHash : bytes32;
  processed : bool
}.

Record Batch : Set := mkBatch {
  id : uint256;
  open : bool;
  totalEncryptedPartyStrength : uint256;
  totalEncryptedPartyAgility : uint256;
  totalEncryptedPartyIntellect : uint256;
  dungeonSeed : uint256
}.

Definition zeroContext : DecryptionContext := mkDecryptionContext 0 0 false.
Definition zeroBatch : Batch := mkBatch 0 false 0 0 0 0.

Record State : Type := mkState {
  owner : address;
  providers : gmap N bool;
  paused : bool;
  cooldownSeconds : uint256;
  lastSubmissionTime : gmap N N;
  lastDecryptionRequestTime : gmap N N;
  decryptionContexts : gmap N DecryptionContext;
  batches : gmap N Batch;
  currentBatchId : uint256
}.

(** Reads of the mappings, with the zero value for an absent key. *)
Definition providers_at (s : State) (a : address) : bool :=
  default false (providers s !! a).
Definition lastSubmissionTime_at (s : State) (a : address) : uint256 :=
  default 0 (lastSubmissionTime s !! a).
Definition lastDecryptionRequestTime_at (s : State) (a : address) : uint256 :=
  default 0 (lastDecryptionRequestTime s !! a).
Definition decryptionContexts_at (s : State) (r : uint256) : DecryptionContext :=
  default zeroContext (decryptionContexts s !! r).
Definition batches_at (s : State) (k : uint256) : Batch :=
  default zeroBatch (batches s !! k).

(** Field writes. *)
Definition set_owner (v : address) (s : State) : State :=
  mkState v (providers s) (paused s) (cooldownSeconds s) (lastSubmissionTime s)
    (lastDecryptionRequestTime s) (decryptionContexts s) (batches s) (currentBatchId s).
Definition set_providers (v : gmap N bool) (s : State) : State :=
  mkState (owner s) v (paused s) (cooldownSeconds s) (lastSubmissionTime s)
    (lastDecryptionRequestTime s) (decryptionContexts s) (batches s) (currentBatchId s).
Definition set_paused (v : bool) (s : State) : State :=
  mkState (owner s) (providers s) v (cooldownSeconds s) (lastSubmissionTime s)
    (lastDecryptionRequestTime s) (decryptionContexts s) (batches s) (currentBatchId s).
Definition set_cooldownSeconds (v : uint256) (s : State) : State :=
  mkState (owner s) (providers s) (paused s) v (lastSubmissionTime s)
    (lastDecryptionRequestTime s) (decryptionContexts s) (batches s) (currentBatchId s).
Definition set_lastSubmissionTime (v : gmap N N) (s : State) : State :=
  mkState (owner s) (providers s) (paused s) (cooldownSeconds s) v
    (lastDecryptionRequestTime s) (decryptionContexts s) (batches s) (currentBatchId s).
Definition set_lastDecryptionRequestTime (v : gmap N N) (s : State) : State :=
  mkState (owner s) (providers s) (paused s) (cooldownSeconds s) (lastSubmissionTime s)
    v (decryptionContexts s) (batches s) (currentBatchId s).
Definition set_decryptionContexts (v : gmap N DecryptionContext) (s : State) : State :=
  mkState (owner s) (providers s) (paused s) (cooldownSeconds s) (lastSubmissionTime s)
    (lastDecryptionRequestTime s) v (batches s) (currentBatchId s).
Definition set_batches (v : gmap N Batch) (s : State) : State :=
  mkState (owner s) (providers s) (paused s) (cooldownSeconds s) (lastSubmissionTime s)
    (lastDecryptionRequestTime s) (decryptionContexts s) v (currentBatchId s).
Definition set_currentBatchId (v : uint256) (s : State) : State :=
  mkState (owner s) (providers s) (paused s) (cooldownSeconds s) (lastSubmissionTime s)
    (lastDecryptionRequestTime s) (decryptionContexts s) (batches s) v.

Definition set_open (v : bool) (b : Batch) : Batch :=
  mkBatch (id b) v (totalEncryptedPartyStrength b) (totalEncryptedPartyAgility b)
    (totalEncryptedPartyIntellect b) (dungeonSeed b).
Definition set_totals (st ag it : uint256) (b : Batch) : Batch :=
  mkBatch (id b) (open b) st ag it (dungeonSeed b).
Definition set_dungeonSeed (v : uint256) (b : Batch) : Batch :=
  mkBatch (id b) (open b) (totalEncryptedPartyStrength b) (totalEncryptedPartyAgility b)
    (totalEncryptedPartyIntellect b) v.
Definition set_processed (v : bool) (c : DecryptionContext) : DecryptionContext :=
  mkDecryptionContext (batchId c) (stateHash c) v.

(** ** Events *)

Module Event.
Inductive t : Set :=
  | OwnershipTransferred (previousOwner newOwner : address)
  | ProviderAdded (provider : address)
  | ProviderRemoved (provider : address)
  | ContractPaused
  | ContractUnpaused
  | CooldownSecondsChanged (oldCooldown newCooldown : uint256)
  | BatchOpened (batch : uint256)
  | BatchClosed (batch : uint256)
  | PartyAttributesSubmitted (batch : uint256) (provider : address)
  | DungeonSeedGenerated (batch : uint256)
  | DecryptionRequested (requestId batch : uint256)
  | DecryptionCompleted (requestId batch strength agility intellect seed : uint256).
End Event.

(** ** The external capabilities

    [FHE_add] and [FHE_mul] return the handle of the result ciphertext;
    [keccak256_encode cts a] stands for [keccak256(abi.encode(cts, a))];
    [checkSignatures] is [true] when the library call returns and [false]
    when it reverts; [this] is the contract's own address and
    [decryptionOracle] the address of the oracle of [SepoliaConfig]. *)

Record External : Type := mkExternal {
  FHE_add : uint256 -> uint256 -> uint256;
  FHE_mul : uint256 -> uint256 -> uint256;
  keccak256_encode : list bytes32 -> address -> bytes32;
  checkSignatures : uint256 -> bytes -> bytes -> bool;
  this : address;
  decryptionOracle : address
}.

(** ** ABI decoding of the cleartexts *)

Definition word_of_bytes (bs : bytes) : uint256 :=
  fold_left (fun acc b => acc * 256 + Byte.to_N b) bs 0.

Definition bytes_of_word (w : uint256) : bytes :=
  map (fun i => match Byte.of_N ((w / 256 ^ (31 - N.of_nat i)) mod 256) with
                | Some b => b
                | None => Byte.x00
                end) (seq 0 32).

Definition word_at (i : nat) (bs : bytes) : uint256 :=
  word_of_bytes (firstn 32 (skipn (32 * i) bs)).

(** [abi.decode(cleartexts, (uint256, uint256, uint256, uint256))]: four
    static words; shorter input reverts, longer input is accepted. *)
Definition abi_decode4 (bs : bytes) : Result (uint256 * uint256 * uint256 * uint256) :=
  if (length bs <? 128)%nat then Err DecodeError
  else Ok (word_at 0 bs, word_at 1 bs, word_at 2 bs, word_at 3 bs).

Definition abi_encode4 (a b c d : uint256) : bytes :=
  bytes_of_word a ++ bytes_of_word b ++ bytes_of_word c ++ bytes_of_word d.

(** ** The contract *)

Section Contract.

Variable E : External.

(** *** Modifiers *)

Definition onlyOwner (s : State) (msg_sender : address) : Result unit :=
  revert_if (negb (msg_sender =? owner s)) NotOwner.

Definition onlyProvider (s : State) (msg_sender : address) : Result unit :=
  revert_if (negb (providers_at s msg_sender)) NotProvider.

Definition whenNotPaused (s : State) : Result unit :=
  revert_if (paused s) Paused.

(** *** Construction: [currentBatchId = 1] is the field initialiser, every
    other field not assigned by the constructor keeps its zero value. *)

Definition constructor (msg_sender : address) : State * list Event.t :=
  let s0 := mkState 0 ∅ false 0 ∅ ∅ ∅ ∅ 1 in
  let s1 := set_owner msg_sender s0 in
  let s2 := set_providers (<[owner s1 := true]> (providers s1)) s1 in
  let s3 := set_cooldownSeconds 30 s2 in
  (s3, [Event.ProviderAdded (owner s1)]).

(** *** Administration *)

Definition transferOwnership (s : State) (msg_sender newOwner : address)
  : Result (State * list Event.t) :=
  check onlyOwner s msg_sender in
  let previousOwner := owner s in
  Ok (set_owner newOwner s, [Event.OwnershipTransferred previousOwner newOwner]).

Definition addProvider (s : State) (msg_sender provider : address)
  : Result (State * list Event.t) :=
  check onlyOwner s msg_sender in
  Ok (set_providers (<[provider := true]> (providers s)) s,
      [Event.ProviderAdded provider]).

Definition removeProvider (s : State) (msg_sender provider : address)
  : Result (State * list Event.t) :=
  check onlyOwner s msg_sender in
  Ok (set_providers (<[provider := false]> (providers s)) s,
      [Event.ProviderRemoved provider]).

Definition setPaused (s : State) (msg_sender : address) (_paused : bool)
  : Result (State * list Event.t) :=
  check onlyOwner s msg_sender in
  if negb (Bool.eqb (paused s) _paused)
  then Ok (set_paused _paused s,
           [if _paused then Event.ContractPaused else Event.ContractUnpaused])
  else Ok (s, []).

Definition setCooldownSeconds (s : State) (msg_sender : address) (_cooldownSeconds : uint256)
  : Result (State * list Event.t) :=
  check onlyOwner s msg_sender in
  let oldCooldown := cooldownSeconds s in
  Ok (set_cooldownSeconds _cooldownSeconds s,
      [Event.CooldownSecondsChanged oldCooldown _cooldownSeconds]).

(** *** Batch ledger *)

(** [_initIfNeeded] asks the library whether the handle is initialised and,
    if not, creates a trivial ciphertext whose handle it drops: the storage
    of the contract is not touched. *)
Definition _initIfNeeded (x : uint256) : unit := tt.

Definition openBatch (s : State) (msg_sender : address)
  : Result (State * list Event.t) :=
  check onlyOwner s msg_sender in
  check whenNotPaused s in
  do s1 <~ (if open (batches_at s (currentBatchId s))
            then do n <~ checked_add (currentBatchId s) 1 in Ok (set_currentBatchId n s)
            else Ok s) in
  let s2 := set_batches
              (<[currentBatchId s1 := mkBatch (currentBatchId s1) true 0 0 0 0]> (batches s1))
              s1 in
  let _ := _initIfNeeded (totalEncryptedPartyStrength (batches_at s2 (currentBatchId s2))) in
  let _ := _initIfNeeded (totalEncryptedPartyAgility (batches_at s2 (currentBatchId s2))) in
  let _ := _initIfNeeded (totalEncryptedPartyIntellect (batches_at s2 (currentBatchId s2))) in
  let _ := _initIfNeeded (dungeonSeed (batches_at s2 (currentBatchId s2))) in
  Ok (s2, [Event.BatchOpened (currentBatchId s2)]).

Definition closeBatch (s : State) (msg_sender : address)
  : Result (State * list Event.t) :=
  check onlyOwner s msg_sender in
  check whenNotPaused s in
  check revert_if (negb (open (batches_at s (currentBatchId s)))) BatchClosed in
  Ok (set_batches
        (<[currentBatchId s := set_open false (batches_at s (currentBatchId s))]> (batches s))
        s,
      [Event.BatchClosed (currentBatchId s)]).

(** *** Aggregation *)

Definition submitPartyAttributes (s : State) (msg_sender : address) (block_timestamp : uint256)
    (encryptedStrength encryptedAgility encryptedIntellect : uint256)
  : Result (State * list Event.t) :=
  check onlyProvider s msg_sender in
  check whenNotPaused s in
  do deadline <~ checked_add (lastSubmissionTime_at s msg_sender) (cooldownSeconds s) in
  check revert_if (block_timestamp <? deadline) CooldownActive in
  check revert_if (negb (open (batches_at s (currentBatchId s)))) BatchClosed in
  let s1 := set_lastSubmissionTime
              (<[msg_sender := block_timestamp]> (lastSubmissionTime s)) s in
  let b := batches_at s1 (currentBatchId s1) in
  let currentEncryptedStrength := totalEncryptedPartyStrength b in
  let currentEncryptedAgility := totalEncryptedPartyAgility b in
  let currentEncryptedIntellect := totalEncryptedPartyIntellect b in
  let newEncryptedStrength := FHE_add E currentEncryptedStrength encryptedStrength in
  let newEncryptedAgility := FHE_add E currentEncryptedAgility encryptedAgility in
  let newEncryptedIntellect := FHE_add E currentEncryptedIntellect encryptedIntellect in
  let s2 := set_batches
              (<[currentBatchId s1 :=
                   set_totals newEncryptedStrength newEncryptedAgility newEncryptedIntellect b]>
                 (batches s1)) s1 in
  Ok (s2, [Event.PartyAttributesSubmitted (currentBatchId s2) msg_sender]).

(** *** Seed generation and the decryption request *)

Definition _hashCiphertexts (cts : list bytes32) : bytes32 :=
  keccak256_encode E cts (this E).

Definition ciphertexts_of (b : Batch) : list bytes32 :=
  [totalEncryptedPartyStrength b; totalEncryptedPartyAgility b;
   totalEncryptedPartyIntellect b; dungeonSeed b].

(** [requestId] is the identifier that [FHE.requestDecryption] returns for
    this call; it is chosen by the library, outside the contract. *)
Definition generateDungeonSeed (s : State) (msg_sender : address) (block_timestamp : uint256)
    (requestId : uint256)
  : Result (State * list Event.t) :=
  check onlyProvider s msg_sender in
  check whenNotPaused s in
  do deadline <~ checked_add (lastDecryptionRequestTime_at s msg_sender) (cooldownSeconds s) in
  check revert_if (block_timestamp <? deadline) CooldownActive in
  check revert_if (negb (open (batches_at s (currentBatchId s)))) BatchClosed in
  let s1 := set_lastDecryptionRequestTime
              (<[msg_sender := block_timestamp]> (lastDecryptionRequestTime s)) s in
  let b := batches_at s1 (currentBatchId s1) in
  let strength := totalEncryptedPartyStrength b in
  let agility := totalEncryptedPartyAgility b in
  let intellect := totalEncryptedPartyIntellect b in
  let tempProduct := FHE_mul E strength agility in
  let tempSum := FHE_add E tempProduct intellect in
  let seed := tempSum in
  let s2 := set_batches (<[currentBatchId s1 := set_dungeonSeed seed b]> (batches s1)) s1 in
  let cts := ciphertexts_of (batches_at s2 (currentBatchId s2)) in
  let stateHash := _hashCiphertexts cts in
  let s3 := set_decryptionContexts
              (<[requestId := mkDecryptionContext (currentBatchId s2) stateHash false]>
                 (decryptionContexts s2)) s2 in
  Ok (s3, [Event.DungeonSeedGenerated (currentBatchId s2);
           Event.DecryptionRequested requestId (currentBatchId s3)]).

(** *** The decryption callback: [public], no modifier *)

Definition myCallback (s : State) (msg_sender : address)
    (requestId : uint256) (cleartexts proof : bytes)
  : Result (State * list Event.t) :=
  let ctx := decryptionContexts_at s requestId in
  check revert_if (processed ctx) ReplayAttempt in
  let batch := batches_at s (batchId ctx) in
  check revert_if (id batch =? 0) InvalidBatchId in
  let currentCts := ciphertexts_of batch in
  let currentHash := _hashCiphertexts currentCts in
  check revert_if (negb (currentHash =? stateHash ctx)) StateMismatch in
  check revert_if (negb (checkSignatures E requestId cleartexts proof)) InvalidSignatures in
  do (strength, agility, intellect, seed) <~ abi_decode4 cleartexts in
  let s1 := set_decryptionContexts
              (<[requestId := set_processed true ctx]> (decryptionContexts s)) s in
  Ok (s1, [Event.DecryptionCompleted requestId (batchId ctx) strength agility intellect seed]).

(** ** Transactions and reachable states *)

Inductive Call : Type :=
  | TransferOwnership (newOwner : address)
  | AddProvider (provider : address)
  | RemoveProvider (provider : address)
  | SetPaused (_paused : bool)
  | SetCooldownSeconds (_cooldownSeconds : uint256)
  | OpenBatch
  | CloseBatch
  | SubmitPartyAttributes (encryptedStrength encryptedAgility encryptedIntellect : uint256)
  | GenerateDungeonSeed (requestId : uint256)
  | MyCallback (requestId : uint256) (cleartexts proof : bytes).

Record Tx : Type := mkTx {
  tx_sender : address;
  tx_timestamp : uint256;
  tx_call : Call
}.

Definition exec (s : State) (tx : Tx) : Result (State * list Event.t) :=
  match tx_call tx with
  | TransferOwnership a => transferOwnership s (tx_sender tx) a
  | AddProvider a => addProvider s (tx_sender tx) a
  | RemoveProvider a => removeProvider s (tx_sender tx) a
  | SetPaused b => setPaused s (tx_sender tx) b
  | SetCooldownSeconds n => setCooldownSeconds s (tx_sender tx) n
  | OpenBatch => openBatch s (tx_sender tx)
  | CloseBatch => closeBatch s (tx_sender tx)
  | SubmitPartyAttributes a b c =>
      submitPartyAttributes s (tx_sender tx) (tx_timestamp tx) a b c
  | GenerateDungeonSeed r => generateDungeonSeed s (tx_sender tx) (tx_timestamp tx) r
  | MyCallback r c p => myCallback s (tx_sender tx) r c p
  end.

(** The storage after a transaction: a revert leaves it as it was. *)
Definition step (s : State) (tx : Tx) : State :=
  match exec s tx with
  | Ok (s', _) => s'
  | Err _ => s
  end.

Definition run (s : State) (txs : list Tx) : State := fold_left step txs s.

Inductive reachable : State -> Prop :=
  | reachable_init (deployer : address) : reachable (fst (constructor deployer))
  | reachable_step (s s' : State) (tx : Tx) (evs : list Event.t) :
      reachable s -> exec s tx = Ok (s', evs) -> reachable s'.

End Contract.

Arguments reachable_step {E s s' tx evs} _ _.

(** The owner's administrative calls. *)
Definition is_admin (c : Call) : bool :=
  match c with
  | TransferOwnership _ | AddProvider _ | RemoveProvider _
  | SetPaused _ | SetCooldownSeconds _ => true
  | _ => false
  end.

(** ** A concrete environment

    A plaintext stand-in for the external capabilities, used to run the
    contract on explicit inputs: a handle is the [euint32] value itself, the
    hash is an injective encoding of the handles and the address, and a proof
    is accepted when it is not empty. *)

Module Plain.

Definition add32 (a b : uint256) : uint256 := (a + b) mod 2 ^ 32.
Definition mul32 (a b : uint256) : uint256 := (a * b) mod 2 ^ 32.
Definition hash (cts : list bytes32) (a : address) : bytes32 :=
  Npos (encode (cts, a)).
Definition nonempty (requestId : uint256) (cleartexts proof : bytes) : bool :=
  match proof with
  | [] => false
  | _ :: _ => true
  end.

Definition env : External :=
  {| FHE_add := add32;
     FHE_mul := mul32;
     keccak256_encode := hash;
     checkSignatures := nonempty;
     this := 1000;
     decryptionOracle := 99 |}.

Definition tx (a : address) (t : uint256) (c : Call) : Tx := mkTx a t c.

Definition proof1 : bytes := [Byte.x01].

End Plain.

(** ** Scenarios

    States reached by explicit transaction sequences under [Plain.env];
    the deployer is address 1 throughout. [succeed] tells whether every
    transaction of a sequence goes through. *)

Fixpoint succeed (E : External) (s : State) (txs : list Tx) : bool :=
  match txs with
  | [] => true
  | tx :: rest =>
      match exec E s tx with
      | Ok (s', _) => succeed E s' rest
      | Err _ => false
      end
  end.

Module PausedFirst.
Import Plain.

(** The deployer pauses the contract; address 7 is no provider. *)
Definition txs : list Tx := [tx 1 0 (SetPaused true)].
Definition s0 : State := run env (fst (constructor 1)) txs.

End PausedFirst.

Module TwoOpen.
Import Plain.

(** The owner opens a batch and, while it is open, opens the next one. *)
Definition txs : list Tx := [tx 1 0 OpenBatch; tx 1 10 OpenBatch].
Definition s1 : State := run env (fst (constructor 1)) [tx 1 0 OpenBatch].
Definition s2 : State := run env (fst (constructor 1)) txs.

End TwoOpen.

Module Reopen.
Import Plain.

(** A batch is opened, receives a contribution and is closed. *)
Definition txs : list Tx :=
  [tx 1 0 OpenBatch; tx 1 100 (SubmitPartyAttributes 5 3 4); tx 1 200 CloseBatch].
Definition s3 : State := run env (fst (constructor 1)) txs.

End Reopen.

Module Party.
Import Plain.

(** The scenario of the specification: provider 1 (the deployer) submits
    (5, 3, 4), provider 2 submits (4, 5, 2), both into batch 1. *)
Definition txs : list Tx :=
  [tx 1 0 OpenBatch; tx 1 50 (AddProvider 2);
   tx 1 100 (SubmitPartyAttributes 5 3 4); tx 2 100 (SubmitPartyAttributes 4 5 2)].
Definition s4 : State := run env (fst (constructor 1)) txs.

(** Provider 1 then asks for the seed; the library names the request 7. *)
Definition request : Tx := tx 1 200 (GenerateDungeonSeed 7).
Definition s5 : State := step env s4 request.

End Party.

Module Cooldown.
Import Plain.

(** Provider 1 submits at time 100; the cooldown is the default 30. *)
Definition txs : list Tx := [tx 1 0 OpenBatch; tx 1 100 (SubmitPartyAttributes 5 3 4)].
Definition s6 : State := run env (fst (constructor 1)) txs.

(** The owner then sets the cooldown to the largest [uint256]. *)
Definition widen : Tx := tx 1 150 (SetCooldownSeconds MAX_UINT256).
Definition s7 : State := step env s6 widen.

End Cooldown.

Module NewOwner.
Import Plain.

(** The deployer opens a batch and hands the ownership to address 2, which
    is not in the provider set. *)
Definition txs : list Tx := [tx 1 0 OpenBatch; tx 1 50 (TransferOwnership 2)].
Definition s8 : State := run env (fst (constructor 1)) txs.

End NewOwner.

Module Reveal.
Import Plain.

(** The oracle's answer for request 7 of [Party.s5]. *)
Definition cleartexts : list Byte.byte := abi_encode4 9 8 6 78.

(** The answer is delivered and accepted; afterwards provider 2 submits
    (1, 1, 1) into the same batch. *)
Definition txs : list Tx :=
  [tx 99 250 (MyCallback 7 cleartexts proof1); tx 2 300 (SubmitPartyAttributes 1 1 1)].
Definition s9 : State := run env Party.s5 txs.

(** Provider 2 submits (1, 1, 1) before the answer arrives. *)
Definition early : Tx := tx 2 300 (SubmitPartyAttributes 1 1 1).

End Reveal.

(** ** Plaintext reading of the handles

    [dec] reads the [euint32] value behind a handle; the FHE operations are
    homomorphic for it, with the wrap-around of 32-bit values. *)

Definition homomorphic (E : External) (dec : uint256 -> N) : Prop :=
  (forall x y, dec (FHE_add E x y) = (dec x + dec y) mod 2 ^ 32) /\
  (forall x y, dec (FHE_mul E x y) = (dec x * dec y) mod 2 ^ 32).

(** ** Request identifiers

    The identifiers come from [FHE.requestDecryption]. [oracle_ids_fresh]
    says that along a transaction sequence every request is given an
    identifier under which no context is stored yet. *)

Fixpoint oracle_ids_fresh (E : External) (s : State) (txs : list Tx) : Prop :=
  match txs with
  | [] => True
  | tx :: rest =>
      (forall r, tx_call tx = GenerateDungeonSeed r -> decryptionContexts s !! r = None) /\
      oracle_ids_fresh E (step E s tx) rest
  end.


(** ** Well-formedness of the storage

    Every batch record sits under its own id, between 1 and the current id,
    and every decryption context points to a batch record. *)

Definition batches_wf (s : State) : Prop :=
  1 <= currentBatchId s /\
  (forall k b, batches s !! k = Some b -> id b = k /\ 1 <= k <= currentBatchId s) /\
  (forall r c, decryptionContexts s !! r = Some c -> is_Some (batches s !! batchId c)).

(** ** Further vocabulary for the contract *)

(** The calls that carry the modifier [onlyOwner]. *)
Definition is_owner_only (c : Call) : bool :=
  match c with
  | TransferOwnership _ | AddProvider _ | RemoveProvider _
  | SetPaused _ | SetCooldownSeconds _ | OpenBatch | CloseBatch => true
  | _ => false
  end.

(** The plaintext totals of the contributions that a transaction sequence
    gets accepted, read through [dec]: a submission counts when it does not
    revert. *)
Fixpoint accepted_sum (E : External) (dec : uint256 -> N) (s : State) (txs : list Tx)
  : N * N * N :=
  match txs with
  | [] => (0, 0, 0)
  | tx :: rest =>
      let '(x, y, z) := accepted_sum E dec (step E s tx) rest in
      match tx_call tx, exec E s tx with
      | SubmitPartyAttributes a b c, Ok _ => (dec a + x, dec b + y, dec c + z)
      | _, _ => (x, y, z)
      end
  end.

(** Reading the three accumulators of a batch modulo [2^32]. *)
Definition totals32 (dec : uint256 -> N) (b : Batch) : N * N * N :=
  (dec (totalEncryptedPartyStrength b) mod 2 ^ 32,
   dec (totalEncryptedPartyAgility b) mod 2 ^ 32,
   dec (totalEncryptedPartyIntellect b) mod 2 ^ 32).

Module Superseded.
Import Plain.

(** A request is pending on batch 1 when the owner opens batch 2; then a
    contribution goes into batch 2. *)
Definition txs : list Tx :=
  [tx 1 0 OpenBatch; tx 1 100 (SubmitPartyAttributes 5 3 4);
   tx 1 200 (GenerateDungeonSeed 7); tx 1 300 OpenBatch].
Definition s11 : State := run env (fst (constructor 1)) txs.
Definition later : list Tx := [tx 1 400 (SubmitPartyAttributes 1 1 1)].

End Superseded.

(** * The front end ([App.tsx])

    The pure computations of the React component: the stand-in
    "encryption" of numbers, the packing of the three attributes into one
    number, and the generation of a dungeon from a seed.

    JavaScript numbers are IEEE 754 binary64 values, here [PrimFloat.float],
    so that the arithmetic of the source is evaluated with its rounding.
    Strings are strings of bytes, which is what the code builds (decimal
    digits, base64 and ASCII words). Of the built-in functions only the
    part that the code exercises on such data is modelled; [None] stands
    for an argument outside that part, and for the exception of [atob]:
    - [toString] prints a number that is a non-negative integer below
      [2^53] in decimal;
    - [parseFloat] reads a non-empty string of decimal digits whose value
      is below [2^63];
    - [rem] is [%] on non-negative integers below [2^53] with a non-zero
      divisor;
    - [btoa] on strings of bytes, [atob] (forgiving base64), [Math_floor],
      [startsWith], [substring_from] and [join] are total. *)

Module JS.

(** The number that a non-negative integer is (rounded to the nearest
    binary64 value from [2^53] on). *)
Definition int_of_N (n : N) : int := Uint63.of_Z (Z.of_N n).
Definition N_of_int (i : int) : N := Z.to_N (Uint63.to_Z i).

Definition number_of_N (n : N) : float := PrimFloat.of_uint63 (int_of_N n).

Definition shift63 : int := Uint63.of_Z FloatOps.shift.

(** [integer_part x] for [1 <= x < 2^53]: with [x = m * 2^e], [1/2 <= m < 1]
    and mantissa [m * 2^53], the integer part is the mantissa without its
    [53 - e] low bits; the flag tells whether these bits are all 0. *)
Definition integer_part (x : float) : int * bool :=
  let '(m, se) := PrimFloat.frshiftexp x in
  let mant := PrimFloat.normfr_mantissa m in
  let k := Uint63.sub 53 (Uint63.sub se shift63) in
  let n := Uint63.lsr mant k in
  (n, Uint63.eqb (Uint63.lsl n k) mant).

(** The non-negative integer below [2^53] that a number is, if it is one. *)
Definition safe_integer (x : float) : option int :=
  if PrimFloat.eqb x 0%float then Some 0%uint63
  else if PrimFloat.leb 1%float x && PrimFloat.ltb x 0x1p53%float then
    let '(n, exact) := integer_part x in
    if exact then Some n else None
  else None.

(** [Math.floor]. *)
Definition Math_floor (x : float) : float :=
  let a := PrimFloat.abs x in
  if PrimFloat.ltb a 0x1p52%float then
    if PrimFloat.eqb a 0%float then x
    else if PrimFloat.ltb a 1%float then
      (if PrimFloat.ltb x 0%float then (-1)%float else 0%float)
    else
      let '(n, exact) := integer_part a in
      if PrimFloat.ltb x 0%float then
        PrimFloat.opp (PrimFloat.of_uint63 (if exact then n else Uint63.add n 1))
      else PrimFloat.of_uint63 n
  else x.

(** [x % y]. *)
Definition rem (x y : float) : option float :=
  match safe_integer x, safe_integer y with
  | Some n, Some m =>
      if Uint63.eqb m 0 then None else Some (PrimFloat.of_uint63 (Uint63.mod n m))
  | _, _ => None
  end.

(** The decimal digits of an integer. *)
Definition decimal (n : N) : string := NilEmpty.string_of_uint (N.to_uint n).

(** [Number.prototype.toString]. *)
Definition toString (x : float) : option string :=
  match safe_integer x with
  | Some n => Some (decimal (N_of_int n))
  | None => None
  end.

(** [parseFloat]. *)
Definition parseFloat (s : string) : option float :=
  match s with
  | EmptyString => None
  | String _ _ =>
      match NilEmpty.uint_of_string s with
      | Some d => if N.of_uint d <? 2 ^ 63 then Some (number_of_N (N.of_uint d)) else None
      | None => None
      end
  end.

(** [s.startsWith(p)] and [s.substring(n)]. *)
Fixpoint startsWith (p s : string) : bool :=
  match p, s with
  | EmptyString, _ => true
  | String a p', String b s' => Ascii.eqb a b && startsWith p' s'
  | String _ _, EmptyString => false
  end.

Fixpoint substring_from (n : nat) (s : string) : string :=
  match n, s with
  | O, _ => s
  | S n', String _ s' => substring_from n' s'
  | S _, EmptyString => EmptyString
  end.

(** [a.join(sep)]. *)
Definition join (sep : string) (a : list string) : string := String.concat sep a.

(** *** Base64 *)

Definition alphabet : list ascii :=
  list_ascii_of_string
    "ABCDEFGHIJKLMNOPQRSTUVWXYZabcdefghijklmnopqrstuvwxyz0123456789+/".

Definition base64_char (sextet : N) : ascii := nth (N.to_nat sextet) alphabet "="%char.

Definition base64_value (c : ascii) : option N :=
  let n := N_of_ascii c in
  if (65 <=? n) && (n <=? 90) then Some (n - 65)
  else if (97 <=? n) && (n <=? 122) then Some (n - 71)
  else if (48 <=? n) && (n <=? 57) then Some (n + 4)
  else if n =? 43 then Some 62
  else if n =? 47 then Some 63
  else None.

(** Three bytes give four characters; one or two bytes left over give two
    or three characters and the padding. *)
Fixpoint encode_groups (bs : list N) : list ascii :=
  match bs with
  | [] => []
  | [a] =>
      [base64_char (a / 4); base64_char ((a mod 4) * 16); "="%char; "="%char]
  | [a; b] =>
      [base64_char (a / 4); base64_char ((a mod 4) * 16 + b / 16);
       base64_char ((b mod 16) * 4); "="%char]
  | a :: b :: c :: rest =>
      base64_char (a / 4) :: base64_char ((a mod 4) * 16 + b / 16)
      :: base64_char ((b mod 16) * 4 + c / 64) :: base64_char (c mod 64)
      :: encode_groups rest
  end.

(** [btoa]. *)
Definition btoa (s : string) : string :=
  string_of_list_ascii (encode_groups (map N_of_ascii (list_ascii_of_string s))).

Definition is_ascii_whitespace (c : ascii) : bool :=
  let n := N_of_ascii c in
  (n =? 9) || (n =? 10) || (n =? 12) || (n =? 13) || (n =? 32).

(** If the length is a multiple of 4, one or two final [=] are removed. *)
Definition strip_padding (l : list ascii) : list ascii :=
  if (length l mod 4 =? 0)%nat then
    match rev l with
    | c1 :: c2 :: r =>
        if Ascii.eqb c1 "=" then
          if Ascii.eqb c2 "=" then rev r else rev (c2 :: r)
        else l
    | [c1] => if Ascii.eqb c1 "=" then [] else l
    | [] => l
    end
  else l.

Fixpoint sextets (l : list ascii) : option (list N) :=
  match l with
  | [] => Some []
  | c :: l' =>
      match base64_value c, sextets l' with
      | Some v, Some vs => Some (v :: vs)
      | _, _ => None
      end
  end.

(** Four sextets give three bytes; of two or three sextets left over the
    last bits are discarded. *)
Fixpoint decode_groups (vs : list N) : list N :=
  match vs with
  | p :: q :: r :: s :: rest =>
      (p * 4 + q / 16) :: ((q mod 16) * 16 + r / 4) :: ((r mod 4) * 64 + s)
      :: decode_groups rest
  | [p; q; r] => [p * 4 + q / 16; (q mod 16) * 16 + r / 4]
  | [p; q] => [p * 4 + q / 16]
  | _ => []
  end.

(** [atob] (the forgiving-base64 decoder); [None] where it throws. *)
Definition atob (s : string) : option string :=
  let data :=
    List.filter (fun c => negb (is_ascii_whitespace c)) (list_ascii_of_string s) in
  let data := strip_padding data in
  if (length data mod 4 =? 1)%nat then None
  else
    match sextets data with
    | Some vs => Some (string_of_list_ascii (map ascii_of_N (decode_groups vs)))
    | None => None
    end.

End JS.

(** ** The functions of [App.tsx] *)

Definition FHEEncryptNumber (value : float) : option string :=
  match JS.toString value with
  | Some digits => Some ("FHE-" ++ JS.btoa digits)%string
  | None => None
  end.

Definition FHEDecryptNumber (encryptedData : string) : option float :=
  if JS.startsWith "FHE-" encryptedData then
    match JS.atob (JS.substring_from 4 encryptedData) with
    | Some digits => JS.parseFloat digits
    | None => None
    end
  else JS.parseFloat encryptedData.

(** [createDungeon]: the three attributes in one number. *)
Definition combineAttributes (strength agility intelligence : float) : float :=
  PrimFloat.add
    (PrimFloat.add (PrimFloat.mul strength 10000%float) (PrimFloat.mul agility 100%float))
    intelligence.

(** [decryptWithSignature]: the attributes read back from the number. *)
Definition splitAttributes (combinedValue : float) : option (float * float * float) :=
  let strength := JS.Math_floor (PrimFloat.div combinedValue 10000%float) in
  match JS.rem combinedValue 10000%float, JS.rem combinedValue 100%float with
  | Some r, Some intelligence =>
      let agility := JS.Math_floor (PrimFloat.div r 100%float) in
      Some (strength, agility, intelligence)
  | _, _ => None
  end.

Record Dungeon : Type := mkDungeon {
  layout : list string;
  monsters : float;
  treasures : float
}.

Definition roomTypes : list string :=
  ["Empty"; "Monster"; "Treasure"; "Boss"; "Trap"]%string.

(** [rng] of [generateDungeon]; the default of [min] is 0. *)
Definition rng (seed : float) (max min : float) : option float :=
  match JS.rem seed 1000%float with
  | Some r =>
      Some (PrimFloat.add
              (JS.Math_floor
                 (PrimFloat.mul (PrimFloat.div r 1000%float)
                    (PrimFloat.add (PrimFloat.sub max min) 1%float)))
              min)
  | None => None
  end.

(** [roomTypes[rng(roomTypes.length - 1)]]; an index that is no integer or
    lies outside the array is outside the modelled part. *)
Definition room (seed : float) : option string :=
  match rng seed (PrimFloat.sub (JS.number_of_N (N.of_nat (length roomTypes))) 1%float)
          0%float with
  | Some k =>
      match JS.safe_integer k with
      | Some i => nth_error roomTypes (N.to_nat (JS.N_of_int i))
      | None => None
      end
  | None => None
  end.

(** The two loops: [size] rows of [size] rooms. *)
Fixpoint rooms (seed : float) (count : nat) : option (list string) :=
  match count with
  | O => Some []
  | S count' =>
      match room seed, rooms seed count' with
      | Some x, Some xs => Some (x :: xs)
      | _, _ => None
      end
  end.

Fixpoint rows (seed : float) (size : nat) (count : nat) : option (list string) :=
  match count with
  | O => Some []
  | S count' =>
      match rooms seed size, rows seed size count' with
      | Some row, Some rs => Some (JS.join " | " row :: rs)
      | _, _ => None
      end
  end.

(** The body of [generateDungeon] once the seed is decoded; the loops run
    [size] times for a [size] that is an integer. *)
Definition dungeon_of_seed (seed : float) : option Dungeon :=
  match rng seed 5%float 3%float with
  | Some size =>
      match JS.safe_integer size with
      | Some n =>
          match rows seed (N.to_nat (JS.N_of_int n)) (N.to_nat (JS.N_of_int n)),
                rng seed 10%float 3%float, rng seed 7%float 1%float with
          | Some layout, Some monsters, Some treasures =>
              Some (mkDungeon layout monsters treasures)
          | _, _, _ => None
          end
      | None => None
      end
  | None => None
  end.

Definition generateDungeon (encryptedData : string) : option Dungeon :=
  match FHEDecryptNumber encryptedData with
  | Some seed => dungeon_of_seed seed
  | None => None
  end.

(** ** Auxiliary definitions for the proofs *)

(** The sextets of the encoding, and its padding. *)
Fixpoint to_sextets (bs : list N) : list N :=
  match bs with
  | [] => []
  | [a] => [a / 4; (a mod 4) * 16]
  | [a; b] => [a / 4; (a mod 4) * 16 + b / 16; (b mod 16) * 4]
  | a :: b :: c :: rest =>
      a / 4 :: (a mod 4) * 16 + b / 16 :: (b mod 16) * 4 + c / 64 :: c mod 64
      :: to_sextets rest
  end.

Fixpoint padding (bs : list N) : list ascii :=
  match bs with
  | [] => []
  | [_] => ["="%char; "="%char]
  | [_; _] => ["="%char]
  | _ :: _ :: _ :: rest => padding rest
  end.

(** Exhaustive checks over an initial segment of the integers. *)
Fixpoint all_below (fuel : nat) (k : N) (f : N -> bool) : bool :=
  match fuel with
  | O => true
  | S fuel' => if f k then all_below fuel' (k + 1) f else false
  end.

Fixpoint all_below_int (fuel : nat) (k : int) (f : int -> bool) : bool :=
  match fuel with
  | O => true
  | S fuel' => if f k then all_below_int fuel' (Uint63.succ k) f else false
  end.

Definition below (n : N) (f : int -> bool) : bool := all_below_int (N.to_nat n) 0 f.

Definition is_safe_integer (n : int) : bool :=
  match JS.safe_integer (PrimFloat.of_uint63 n) with
  | Some m => Uint63.eqb m n
  | None => false
  end.

Definition combine_exact (s a i : int) : bool :=
  PrimFloat.Leibniz.eqb
    (combineAttributes (PrimFloat.of_uint63 s) (PrimFloat.of_uint63 a)
       (PrimFloat.of_uint63 i))
    (PrimFloat.of_uint63 (s * 10000 + a * 100 + i)%uint63).

Definition split_digits (c : int) : bool :=
  match splitAttributes (PrimFloat.of_uint63 c) with
  | Some (x, y, z) =>
      PrimFloat.Leibniz.eqb x (PrimFloat.of_uint63 (c / 10000)%uint63)
      && PrimFloat.Leibniz.eqb y (PrimFloat.of_uint63 ((c mod 10000) / 100)%uint63)
      && PrimFloat.Leibniz.eqb z (PrimFloat.of_uint63 (c mod 100)%uint63)
  | None => false
  end.

Fixpoint strings_eqb (l l' : list string) : bool :=
  match l, l' with
  | [], [] => true
  | s :: l, s' :: l' => String.eqb s s' && strings_eqb l l'
  | _, _ => false
  end.

(** The dungeon of a seed, from its residue modulo 1000. *)
Definition dungeon_of_residue (r : N) : option Dungeon :=
  match nth_error roomTypes (N.to_nat (r * 5 / 1000)) with
  | Some room =>
      let size := N.to_nat (3 + r * 3 / 1000) in
      Some (mkDungeon (repeat (JS.join " | " (repeat room size)) size)
              (JS.number_of_N (3 + r * 8 / 1000)) (JS.number_of_N (1 + r * 7 / 1000)))
  | None => None
  end.

Definition residue_dungeon (r : int) : bool :=
  match dungeon_of_seed (PrimFloat.of_uint63 r), dungeon_of_residue (JS.N_of_int r) with
  | Some d, Some d' =>
      strings_eqb (layout d) (layout d')
      && PrimFloat.Leibniz.eqb (monsters d) (monsters d')
      && PrimFloat.Leibniz.eqb (treasures d) (treasures d')
  | _, _ => false
  end.

(** * Properties *)

(** ** Proof support *)

Ltac unfold_entry :=
  unfold transferOwnership, addProvider, removeProvider, setPaused, setCooldownSeconds,
    openBatch, closeBatch, submitPartyAttributes, generateDungeonSeed, myCallback,
    onlyOwner, onlyProvider, whenNotPaused, revert_if, checked_add, bind in *.

(** Case analysis on every guard of an executed entry point. *)
Ltac split_guards H :=
  repeat match type of H with
         | context [if ?c then _ else _] => destruct c eqn:?
         | context [match ?c with Ok _ => _ | Err _ => _ end] => destruct c eqn:?
         | context [let (_, _) := ?c in _] => destruct c eqn:?
         end;
  try discriminate H.

(** The boolean tests of the guards, as propositions. *)
Ltac reflect_guards :=
  repeat match goal with
         | H : negb _ = false |- _ => apply negb_false_iff in H
         | H : negb _ = true |- _ => apply negb_true_iff in H
         | H : (_ =? _) = true |- _ => apply N.eqb_eq in H
         | H : (_ =? _) = false |- _ => apply N.eqb_neq in H
         | H : (_ <=? _) = true |- _ => apply N.leb_le in H
         | H : (_ <? _) = false |- _ => apply N.ltb_ge in H
         | H : (_ <? _) = true |- _ => apply N.ltb_lt in H
         end.

(** Two spellings of the same storage. *)
Ltac same_state :=
  unfold set_owner, set_providers, set_paused, set_cooldownSeconds, set_lastSubmissionTime,
    set_lastDecryptionRequestTime, set_decryptionContexts, set_batches, set_currentBatchId,
    batches_at, decryptionContexts_at;
  cbn; rewrite ?lookup_insert_eq; cbn;
  repeat match goal with
         | H : paused _ = _ |- _ => rewrite ?H; clear H
         end;
  reflexivity.

(** ** What the entry points do *)

Section EntryPoints.

Variable E : External.

(** *** The role and pause gates *)

Lemma submit_not_provider s a t x y z :
  providers_at s a = false -> submitPartyAttributes E s a t x y z = Err NotProvider.
Proof.
  intros H. unfold submitPartyAttributes, onlyProvider, revert_if. now rewrite H.
Qed.

Lemma generate_not_provider s a t r :
  providers_at s a = false -> generateDungeonSeed E s a t r = Err NotProvider.
Proof.
  intros H. unfold generateDungeonSeed, onlyProvider, revert_if. now rewrite H.
Qed.



(** *** Successful calls *)

(** The administrative calls leave the ledger, the contexts and the
    timestamps alone. *)
Lemma admin_ok s tx s' evs :
  is_admin (tx_call tx) = true ->
  exec E s tx = Ok (s', evs) ->
  tx_sender tx = owner s /\
  batches s' = batches s /\
  currentBatchId s' = currentBatchId s /\
  decryptionContexts s' = decryptionContexts s /\
  lastSubmissionTime s' = lastSubmissionTime s /\
  lastDecryptionRequestTime s' = lastDecryptionRequestTime s.
Proof.
  intros Ha H. unfold exec in H.
  destruct (tx_call tx); try discriminate Ha;
    unfold_entry; split_guards H; simplify_eq; reflect_guards; repeat split; auto.
Qed.

Lemma openBatch_ok s a s' evs :
  openBatch s a = Ok (s', evs) ->
  let n := if open (batches_at s (currentBatchId s))
           then currentBatchId s + 1 else currentBatchId s in
  (a = owner s /\ paused s = false) /\
  currentBatchId s' = n /\
  batches s' = <[n := mkBatch n true 0 0 0 0]> (batches s) /\
  decryptionContexts s' = decryptionContexts s /\
  lastSubmissionTime s' = lastSubmissionTime s /\
  lastDecryptionRequestTime s' = lastDecryptionRequestTime s.
Proof.
  intros H. unfold_entry. split_guards H; simplify_eq; reflect_guards; cbn.
  all: repeat split; auto.
Qed.

Lemma closeBatch_ok s a s' evs :
  closeBatch s a = Ok (s', evs) ->
  (a = owner s /\ paused s = false /\ open (batches_at s (currentBatchId s)) = true) /\
  currentBatchId s' = currentBatchId s /\
  batches s'
    = <[currentBatchId s := set_open false (batches_at s (currentBatchId s))]> (batches s) /\
  decryptionContexts s' = decryptionContexts s /\
  lastSubmissionTime s' = lastSubmissionTime s /\
  lastDecryptionRequestTime s' = lastDecryptionRequestTime s.
Proof.
  intros H. unfold_entry. split_guards H; simplify_eq; reflect_guards; cbn.
  repeat split; auto.
Qed.

Lemma submitPartyAttributes_ok s a t x y z s' evs :
  submitPartyAttributes E s a t x y z = Ok (s', evs) ->
  let b := batches_at s (currentBatchId s) in
  (providers_at s a = true /\ paused s = false /\
   lastSubmissionTime_at s a + cooldownSeconds s <= MAX_UINT256 /\
   lastSubmissionTime_at s a + cooldownSeconds s <= t /\
   open b = true) /\
  s' = mkState (owner s) (providers s) (paused s) (cooldownSeconds s)
         (<[a := t]> (lastSubmissionTime s))
         (lastDecryptionRequestTime s)
         (decryptionContexts s)
         (<[currentBatchId s :=
              set_totals (FHE_add E (totalEncryptedPartyStrength b) x)
                         (FHE_add E (totalEncryptedPartyAgility b) y)
                         (FHE_add E (totalEncryptedPartyIntellect b) z) b]> (batches s))
         (currentBatchId s).
Proof.
  intros H. unfold_entry. split_guards H. simplify_eq. reflect_guards. cbn.
  split; [auto | same_state].
Qed.

Lemma generateDungeonSeed_ok s a t r s' evs :
  generateDungeonSeed E s a t r = Ok (s', evs) ->
  let b := batches_at s (currentBatchId s) in
  let seed := FHE_add E (FHE_mul E (totalEncryptedPartyStrength b)
                                   (totalEncryptedPartyAgility b))
                        (totalEncryptedPartyIntellect b) in
  (providers_at s a = true /\ paused s = false /\
   lastDecryptionRequestTime_at s a + cooldownSeconds s <= MAX_UINT256 /\
   lastDecryptionRequestTime_at s a + cooldownSeconds s <= t /\
   open b = true) /\
  s' = mkState (owner s) (providers s) (paused s) (cooldownSeconds s)
         (lastSubmissionTime s)
         (<[a := t]> (lastDecryptionRequestTime s))
         (<[r := mkDecryptionContext (currentBatchId s)
                   (_hashCiphertexts E
                      (ciphertexts_of (set_dungeonSeed seed b))) false]>
            (decryptionContexts s))
         (<[currentBatchId s := set_dungeonSeed seed b]> (batches s))
         (currentBatchId s).
Proof.
  intros H. unfold_entry. split_guards H. simplify_eq. reflect_guards. cbn.
  split; [auto | same_state].
Qed.

(** [myCallback] succeeds exactly when its five checks pass, and then marks
    the context and reports the decoded words. *)
Lemma myCallback_ok s c r ct p s' evs :
  myCallback E s c r ct p = Ok (s', evs) <->
  let ctx := decryptionContexts_at s r in
  let batch := batches_at s (batchId ctx) in
  processed ctx = false /\
  id batch <> 0 /\
  _hashCiphertexts E (ciphertexts_of batch) = stateHash ctx /\
  checkSignatures E r ct p = true /\
  (128 <= length ct)%nat /\
  s' = set_decryptionContexts (<[r := set_processed true ctx]> (decryptionContexts s)) s /\
  evs = [Event.DecryptionCompleted r (batchId ctx)
           (word_at 0 ct) (word_at 1 ct) (word_at 2 ct) (word_at 3 ct)].
Proof.
  cbv zeta. unfold myCallback, abi_decode4, revert_if, bind.
  destruct (processed _); [split; [discriminate | intros [? _]; discriminate] |].
  destruct (id _ =? 0) eqn:Hid.
  { apply N.eqb_eq in Hid. split; [discriminate | intros (_ & ? & _); contradiction]. }
  apply N.eqb_neq in Hid.
  destruct (_ =? stateHash _) eqn:Hh; cbv beta iota delta [negb].
  2: { apply N.eqb_neq in Hh. split; [discriminate | intros (_ & _ & ? & _); contradiction]. }
  apply N.eqb_eq in Hh.
  destruct (checkSignatures E r ct p); cbv beta iota delta [negb].
  2: { split; [discriminate | intros (_ & _ & _ & ? & _); discriminate]. }
  destruct (length ct <? 128)%nat eqn:Hl.
  { apply Nat.ltb_lt in Hl. split; [discriminate | intros (_ & _ & _ & _ & ? & _); lia]. }
  apply Nat.ltb_ge in Hl. split.
  - intros H. injection H as <- <-. repeat split; auto.
  - intros (_ & _ & _ & _ & _ & -> & ->). reflexivity.
Qed.

(** *** The checks of the callback, in their order *)



(** *** The cooldown check *)

Lemma submit_cooldown_iff s a t x y z :
  providers_at s a = true -> paused s = false ->
  lastSubmissionTime_at s a + cooldownSeconds s <= MAX_UINT256 ->
  submitPartyAttributes E s a t x y z = Err CooldownActive
  <-> t < lastSubmissionTime_at s a + cooldownSeconds s.
Proof.
  intros Hp Hq Hmax. apply N.leb_le in Hmax.
  unfold submitPartyAttributes, onlyProvider, whenNotPaused, checked_add, revert_if.
  rewrite Hp, Hq, Hmax. cbn.
  destruct (t <? _) eqn:Hlt; cbn.
  - apply N.ltb_lt in Hlt. tauto.
  - apply N.ltb_ge in Hlt.
    destruct (open _); cbn; split; intros; solve [discriminate | lia].
Qed.

Lemma generate_cooldown_iff s a t r :
  providers_at s a = true -> paused s = false ->
  lastDecryptionRequestTime_at s a + cooldownSeconds s <= MAX_UINT256 ->
  generateDungeonSeed E s a t r = Err CooldownActive
  <-> t < lastDecryptionRequestTime_at s a + cooldownSeconds s.
Proof.
  intros Hp Hq Hmax. apply N.leb_le in Hmax.
  unfold generateDungeonSeed, onlyProvider, whenNotPaused, checked_add, revert_if.
  rewrite Hp, Hq, Hmax. cbn.
  destruct (t <? _) eqn:Hlt; cbn.
  - apply N.ltb_lt in Hlt. tauto.
  - apply N.ltb_ge in Hlt.
    destruct (open _); cbn; split; intros; solve [discriminate | lia].
Qed.

(** Once the gates, the cooldown and the batch check pass, the call succeeds. *)
Lemma submit_succeeds s a t x y z :
  providers_at s a = true -> paused s = false ->
  lastSubmissionTime_at s a + cooldownSeconds s <= MAX_UINT256 ->
  lastSubmissionTime_at s a + cooldownSeconds s <= t ->
  open (batches_at s (currentBatchId s)) = true ->
  exists s' evs, submitPartyAttributes E s a t x y z = Ok (s', evs).
Proof.
  intros Hp Hq Hmax Ht Ho. apply N.leb_le in Hmax. apply N.ltb_ge in Ht.
  unfold submitPartyAttributes, onlyProvider, whenNotPaused, checked_add, revert_if.
  rewrite Hp, Hq, Hmax. cbn. rewrite Ht. cbn. rewrite Ho. cbn. eauto.
Qed.

Lemma generate_succeeds s a t r :
  providers_at s a = true -> paused s = false ->
  lastDecryptionRequestTime_at s a + cooldownSeconds s <= MAX_UINT256 ->
  lastDecryptionRequestTime_at s a + cooldownSeconds s <= t ->
  open (batches_at s (currentBatchId s)) = true ->
  exists s' evs, generateDungeonSeed E s a t r = Ok (s', evs).
Proof.
  intros Hp Hq Hmax Ht Ho. apply N.leb_le in Hmax. apply N.ltb_ge in Ht.
  unfold generateDungeonSeed, onlyProvider, whenNotPaused, checked_add, revert_if.
  rewrite Hp, Hq, Hmax. cbn. rewrite Ht. cbn. rewrite Ho. cbn. eauto.
Qed.

End EntryPoints.

(** ** Reachable states and the storage invariant *)

Section Reachability.

Variable E : External.

Lemma reachable_run s txs : reachable E s -> reachable E (run E s txs).
Proof.
  revert s. induction txs as [| tx txs IH]; intros s Hs; [exact Hs |].
  cbn. apply IH. unfold step. destruct (exec E s tx) as [[s' evs] |] eqn:Hx; [| exact Hs].
  exact (reachable_step Hs Hx).
Qed.

Lemma reachable_stepped s tx : reachable E s -> reachable E (step E s tx).
Proof. intros Hs. exact (reachable_run s [tx] Hs). Qed.

Lemma batches_at_open s k :
  open (batches_at s k) = true -> batches s !! k = Some (batches_at s k).
Proof.
  unfold batches_at. destruct (batches s !! k); simpl; [reflexivity | discriminate].
Qed.

Lemma batches_at_id s k : id (batches_at s k) <> 0 -> is_Some (batches s !! k).
Proof.
  unfold batches_at. destruct (batches s !! k); simpl; [eauto | congruence].
Qed.

Lemma batches_wf_init deployer : batches_wf (fst (constructor deployer)).
Proof.
  unfold batches_wf. cbn. split; [lia |]. split; intros ? ? H; now rewrite lookup_empty in H.
Qed.

(** A call that writes no batch record. *)
Lemma batches_wf_same s s' :
  batches_wf s ->
  batches s' = batches s ->
  currentBatchId s' = currentBatchId s ->
  (forall r c, decryptionContexts s' !! r = Some c -> is_Some (batches s !! batchId c)) ->
  batches_wf s'.
Proof.
  intros (Hcur & Hb & _) Hbs Hc Hctx. unfold batches_wf. rewrite Hbs, Hc. auto.
Qed.

(** A call that writes the record [k], at or below the new current id. *)
Lemma batches_wf_write s s' k b :
  batches_wf s ->
  batches s' = <[k := b]> (batches s) ->
  id b = k ->
  1 <= k <= currentBatchId s' ->
  currentBatchId s <= currentBatchId s' ->
  (forall r c, decryptionContexts s' !! r = Some c ->
               decryptionContexts s !! r = Some c \/ batchId c = k) ->
  batches_wf s'.
Proof.
  intros (Hcur & Hb & Hc) Hbs Hid Hk Hmono Hctx. unfold batches_wf. rewrite Hbs.
  split; [lia |]. split.
  - intros j bj. rewrite lookup_insert. case_decide.
    + intros [= <-]. subst j. auto.
    + intros Hj. destruct (Hb _ _ Hj). split; [assumption | lia].
  - intros r c Hr. rewrite lookup_insert. case_decide; [eauto |].
    destruct (Hctx _ _ Hr) as [Hold | Hnew]; [eauto | congruence].
Qed.

Lemma batches_wf_exec s tx s' evs :
  batches_wf s -> exec E s tx = Ok (s', evs) -> batches_wf s'.
Proof.
  intros Hwf H. pose proof Hwf as (Hcur & Hb & Hc).
  destruct (is_admin (tx_call tx)) eqn:Hadm.
  { destruct (admin_ok E _ _ _ _ Hadm H) as (_ & Hbs & Hn & Hcs & _).
    apply (batches_wf_same s); auto. rewrite Hcs. exact Hc. }
  unfold exec in H. destruct (tx_call tx); try discriminate Hadm.
  - (* openBatch *)
    apply openBatch_ok in H. cbv zeta in H. destruct H as (_ & Hn & Hbs & Hcs & _).
    eapply batches_wf_write; eauto; rewrite ?Hn, ?Hcs; auto;
      destruct (open _); lia.
  - (* closeBatch *)
    apply closeBatch_ok in H. destruct H as ((_ & _ & Ho) & Hn & Hbs & Hcs & _).
    destruct (Hb _ _ (batches_at_open _ _ Ho)) as [Hid _].
    eapply batches_wf_write; eauto; rewrite ?Hn, ?Hcs; auto; lia.
  - (* submitPartyAttributes *)
    apply submitPartyAttributes_ok in H. cbv zeta in H. destruct H as ((_ & _ & _ & _ & Ho) & ->).
    destruct (Hb _ _ (batches_at_open _ _ Ho)) as [Hid _].
    eapply batches_wf_write; eauto; cbn; auto; lia.
  - (* generateDungeonSeed *)
    apply generateDungeonSeed_ok in H. cbv zeta in H.
    destruct H as ((_ & _ & _ & _ & Ho) & ->).
    destruct (Hb _ _ (batches_at_open _ _ Ho)) as [Hid _].
    eapply batches_wf_write; eauto; cbn; auto; try lia.
    intros r c. rewrite lookup_insert. case_decide; [intros [= <-]; auto | auto].
  - (* myCallback *)
    apply myCallback_ok in H. cbv zeta in H. destruct H as (_ & Hid & _ & _ & _ & -> & _).
    apply (batches_wf_same s); auto. cbn.
    intros r c. rewrite lookup_insert. case_decide; [intros [= <-] | apply Hc].
    cbn. now apply batches_at_id.
Qed.

Lemma reachable_wf s : reachable E s -> batches_wf s.
Proof.
  induction 1 as [d | s s' tx evs _ IH H].
  - apply batches_wf_init.
  - exact (batches_wf_exec _ _ _ _ IH H).
Qed.

(** Every successful call leaves every batch record other than the one that
    is current afterwards as it was, and never lowers the current id. *)
Lemma exec_frame_batches s tx s' evs k :
  exec E s tx = Ok (s', evs) -> k <> currentBatchId s' ->
  batches s' !! k = batches s !! k.
Proof.
  intros H Hk. unfold exec in H.
  destruct (tx_call tx); unfold_entry; split_guards H; simplify_eq; cbn in *;
    try reflexivity; now rewrite lookup_insert_ne.
Qed.

Lemma exec_currentBatchId_mono s tx s' evs :
  exec E s tx = Ok (s', evs) -> currentBatchId s <= currentBatchId s'.
Proof.
  intros H. unfold exec in H.
  destruct (tx_call tx); unfold_entry; split_guards H; simplify_eq; cbn in *; lia.
Qed.

End Reachability.

(** No transaction of the scenarios reverts. *)
Lemma scenarios_succeed :
  succeed Plain.env (fst (constructor 1)) PausedFirst.txs = true /\
  succeed Plain.env (fst (constructor 1)) TwoOpen.txs = true /\
  succeed Plain.env (fst (constructor 1)) Reopen.txs = true /\
  succeed Plain.env (fst (constructor 1)) (Party.txs ++ [Party.request]) = true /\
  succeed Plain.env (fst (constructor 1)) (Cooldown.txs ++ [Cooldown.widen]) = true /\
  succeed Plain.env (fst (constructor 1)) NewOwner.txs = true /\
  succeed Plain.env Party.s5 Reveal.txs = true /\
  succeed Plain.env Party.s5 [Reveal.early] = true.
Proof. vm_compute. repeat split; reflexivity. Qed.

Lemma plain_homomorphic : homomorphic Plain.env (fun h => h).
Proof. split; intros x y; reflexivity. Qed.


(** * AccessControl *)

Lemma constructor_state_provider (deployer : address) :
  providers_at (fst (constructor deployer)) deployer = true.
Proof. unfold providers_at. cbn. now rewrite lookup_insert_eq. Qed.

(** C10. After construction the deployer is the owner and a member of the
    provider set, the pause flag is false and the cooldown is 30 seconds
    (the batch counter starts at 1 and no batch, context or timestamp is
    stored). *)
Theorem constructor_initial_state (deployer : address) :
  let s := fst (constructor deployer) in
  owner s = deployer /\
  providers_at s deployer = true /\
  paused s = false /\
  cooldownSeconds s = 30 /\
  currentBatchId s = 1 /\
  batches s = ∅ /\ decryptionContexts s = ∅ /\
  lastSubmissionTime s = ∅ /\ lastDecryptionRequestTime s = ∅.
Proof.
  cbn. repeat split. apply constructor_state_provider.
Qed.

(** ** Order of the gates *)




(** ** The role gate of seed generation *)

(** C8, as stated, fails: address 2 is the owner after a transfer but not a
    provider; the contract is not paused, batch 1 is open and no cooldown is
    running, and still its [generateDungeonSeed] fails with [NotProvider]. *)
Lemma owner_without_provider_role_rejected :
  reachable Plain.env NewOwner.s8 /\
  owner NewOwner.s8 = 2 /\
  providers_at NewOwner.s8 2 = false /\
  paused NewOwner.s8 = false /\
  open (batches_at NewOwner.s8 (currentBatchId NewOwner.s8)) = true /\
  lastDecryptionRequestTime_at NewOwner.s8 2 + cooldownSeconds NewOwner.s8 <= 100 /\
  generateDungeonSeed Plain.env NewOwner.s8 2 100 7 = Err NotProvider.
Proof.
  split; [apply reachable_run, reachable_init |].
  vm_compute. repeat split; try reflexivity; discriminate.
Qed.

(** C8, amended. [generateDungeonSeed] is gated by [onlyProvider] alone: it
    fails with [NotProvider] exactly when the caller is not in the provider
    set, whether or not the caller is the owner; a caller in the provider
    set that meets the pause, cooldown and batch-open preconditions
    succeeds. The owner passes the role gate only as a provider, which the
    deployer is from construction. *)
Theorem generateDungeonSeed_provider_gated (E : External) (s : State) (a : address)
    (t r : uint256) :
  (generateDungeonSeed E s a t r = Err NotProvider <-> providers_at s a = false) /\
  (providers_at s (owner s) = false ->
     generateDungeonSeed E s (owner s) t r = Err NotProvider) /\
  (providers_at s a = true -> paused s = false ->
     lastDecryptionRequestTime_at s a + cooldownSeconds s <= MAX_UINT256 ->
     lastDecryptionRequestTime_at s a + cooldownSeconds s <= t ->
     open (batches_at s (currentBatchId s)) = true ->
     exists s' evs, generateDungeonSeed E s a t r = Ok (s', evs)) /\
  (forall deployer, providers_at (fst (constructor deployer)) deployer = true).
Proof.
  split; [| split; [| split]].
  - split; [| apply generate_not_provider].
    intros H. destruct (providers_at s a) eqn:Hp; [| reflexivity].
    exfalso. unfold_entry. rewrite Hp in H. cbn in H. split_guards H.
  - apply generate_not_provider.
  - apply generate_succeeds.
  - intros d. apply (constructor_state_provider d).
Qed.

Lemma generateDungeonSeed_provider_gated_witness :
  generateDungeonSeed Plain.env NewOwner.s8 (owner NewOwner.s8) 100 7 = Err NotProvider /\
  exists s' evs, generateDungeonSeed Plain.env NewOwner.s8 1 100 7 = Ok (s', evs).
Proof.
  split.
  - apply (proj1 (proj2 (generateDungeonSeed_provider_gated Plain.env NewOwner.s8 1 100 7))).
    vm_compute. reflexivity.
  - apply (proj1 (proj2 (proj2
             (generateDungeonSeed_provider_gated Plain.env NewOwner.s8 1 100 7)))).
    all: vm_compute; solve [reflexivity | discriminate].
Defined.

(** * RateLimiter *)

Section RateLimiter.

Variable E : External.

(** What a successful submission leaves behind for the next one. *)
Lemma submit_post s a t x y z s' evs :
  submitPartyAttributes E s a t x y z = Ok (s', evs) ->
  providers_at s' a = true /\ paused s' = false /\
  cooldownSeconds s' = cooldownSeconds s /\
  lastSubmissionTime_at s' a = t /\
  (forall a', a' <> a -> lastSubmissionTime_at s' a' = lastSubmissionTime_at s a') /\
  lastDecryptionRequestTime s' = lastDecryptionRequestTime s /\
  open (batches_at s' (currentBatchId s')) = true.
Proof.
  intros H. apply submitPartyAttributes_ok in H. destruct H as [(Hp & Hq & _ & _ & Ho) ->].
  unfold providers_at, lastSubmissionTime_at, batches_at in *. cbn.
  rewrite !lookup_insert_eq. cbn. repeat split; auto.
  intros a' Ha. now rewrite lookup_insert_ne.
Qed.

Lemma generate_post s a t r s' evs :
  generateDungeonSeed E s a t r = Ok (s', evs) ->
  providers_at s' a = true /\ paused s' = false /\
  cooldownSeconds s' = cooldownSeconds s /\
  lastDecryptionRequestTime_at s' a = t /\
  (forall a', a' <> a ->
     lastDecryptionRequestTime_at s' a' = lastDecryptionRequestTime_at s a') /\
  lastSubmissionTime s' = lastSubmissionTime s /\
  open (batches_at s' (currentBatchId s')) = true.
Proof.
  intros H. apply generateDungeonSeed_ok in H. destruct H as [(Hp & Hq & _ & _ & Ho) ->].
  unfold providers_at, lastDecryptionRequestTime_at, batches_at in *. cbn.
  rewrite !lookup_insert_eq. cbn. repeat split; auto.
  intros a' Ha. now rewrite lookup_insert_ne.
Qed.

(** The submission timestamp of [a] changes only through a successful
    [submitPartyAttributes] of [a], which sets it to the time of the call. *)
Lemma lastSubmissionTime_changes s tx a :
  lastSubmissionTime_at (step E s tx) a <> lastSubmissionTime_at s a ->
  (exists x y z, tx_call tx = SubmitPartyAttributes x y z) /\
  tx_sender tx = a /\
  (exists s' evs, exec E s tx = Ok (s', evs)) /\
  lastSubmissionTime_at (step E s tx) a = tx_timestamp tx.
Proof.
  unfold step. destruct (exec E s tx) as [[s' evs] |] eqn:H; [| congruence].
  intros Hne. unfold exec in H. destruct (tx_call tx) eqn:Hcall.
  9: { apply generate_post in H. destruct H as (_ & _ & _ & _ & _ & Heq & _).
       unfold lastSubmissionTime_at in Hne. now rewrite Heq in Hne. }
  8: { pose proof (submit_post _ _ _ _ _ _ _ _ H) as (_ & _ & _ & Hset & Hoth & _).
       destruct (N.eq_dec a (tx_sender tx)) as [-> | Hd].
       - repeat split; eauto.
       - now rewrite (Hoth _ Hd) in Hne. }
  all: exfalso; apply Hne; clear Hne; unfold_entry; split_guards H; simplify_eq;
    reflexivity.
Qed.

(** Likewise for the timestamp of the decryption requests. *)
Lemma lastDecryptionRequestTime_changes s tx a :
  lastDecryptionRequestTime_at (step E s tx) a <> lastDecryptionRequestTime_at s a ->
  (exists r, tx_call tx = GenerateDungeonSeed r) /\
  tx_sender tx = a /\
  (exists s' evs, exec E s tx = Ok (s', evs)) /\
  lastDecryptionRequestTime_at (step E s tx) a = tx_timestamp tx.
Proof.
  unfold step. destruct (exec E s tx) as [[s' evs] |] eqn:H; [| congruence].
  intros Hne. unfold exec in H. destruct (tx_call tx) eqn:Hcall.
  9: { pose proof (generate_post _ _ _ _ _ _ H) as (_ & _ & _ & Hset & Hoth & _).
       destruct (N.eq_dec a (tx_sender tx)) as [-> | Hd].
       - repeat split; eauto.
       - now rewrite (Hoth _ Hd) in Hne. }
  8: { apply submit_post in H. destruct H as (_ & _ & _ & _ & _ & Heq & _).
       unfold lastDecryptionRequestTime_at in Hne. now rewrite Heq in Hne. }
  all: exfalso; apply Hne; clear Hne; unfold_entry; split_guards H; simplify_eq;
    reflexivity.
Qed.

End RateLimiter.

(** C7, as stated, fails. Address 7 is not a provider: at time 10, after
    the batch was opened at time 0 and inside what would be its cooldown
    window, its submission fails with [NotProvider]. In the paused contract
    the seed request of provider 1 at time 10 fails with [Paused]. Provider 1
    has submitted at 100 and the cooldown is now [2^256 - 1]: at time 200
    the sum overflows and the call reverts with the arithmetic panic. None
    of the calls fails with [CooldownActive]. *)
Lemma cooldown_window_other_errors :
  (reachable Plain.env TwoOpen.s1 /\ reachable Plain.env PausedFirst.s0 /\
   reachable Plain.env Cooldown.s7) /\
  (10 < lastSubmissionTime_at TwoOpen.s1 7 + cooldownSeconds TwoOpen.s1 /\
   submitPartyAttributes Plain.env TwoOpen.s1 7 10 1 1 1 = Err NotProvider) /\
  (10 < lastDecryptionRequestTime_at PausedFirst.s0 1 + cooldownSeconds PausedFirst.s0 /\
   generateDungeonSeed Plain.env PausedFirst.s0 1 10 7 = Err Paused) /\
  (providers_at Cooldown.s7 1 = true /\ paused Cooldown.s7 = false /\
   200 < lastSubmissionTime_at Cooldown.s7 1 + cooldownSeconds Cooldown.s7 /\
   submitPartyAttributes Plain.env Cooldown.s7 1 200 1 1 1 = Err PanicOverflow).
Proof.
  split.
  - repeat split; [| | apply reachable_stepped]; apply reachable_run, reachable_init.
  - vm_compute. repeat split; reflexivity.
Qed.

(** C7, amended. For a caller that passes the role and the pause gate, and
    as long as [last + cooldownSeconds] fits in [uint256], each rate-limited
    action fails with [CooldownActive] exactly when
    [now < last[address][action] + cooldownSeconds], each action with its
    own timestamp. A success records [now] for that caller and that action
    only; after it, the same call at [now + cooldownSeconds - 1] fails with
    [CooldownActive] and at [now + cooldownSeconds] it succeeds. A timestamp
    changes only through a successful call of its own action by its own
    address. *)
Theorem cooldown_after_gates (E : External) (s : State) (a : address) (t : uint256) :
  providers_at s a = true ->
  paused s = false ->
  (forall x y z,
     lastSubmissionTime_at s a + cooldownSeconds s <= MAX_UINT256 ->
     submitPartyAttributes E s a t x y z = Err CooldownActive
     <-> t < lastSubmissionTime_at s a + cooldownSeconds s) /\
  (forall r,
     lastDecryptionRequestTime_at s a + cooldownSeconds s <= MAX_UINT256 ->
     generateDungeonSeed E s a t r = Err CooldownActive
     <-> t < lastDecryptionRequestTime_at s a + cooldownSeconds s) /\
  (forall x y z s' evs,
     submitPartyAttributes E s a t x y z = Ok (s', evs) ->
     lastSubmissionTime_at s' a = t /\
     lastDecryptionRequestTime s' = lastDecryptionRequestTime s /\
     (0 < t + cooldownSeconds s -> t + cooldownSeconds s <= MAX_UINT256 ->
      forall x' y' z',
        submitPartyAttributes E s' a (t + cooldownSeconds s - 1) x' y' z'
          = Err CooldownActive /\
        exists s'' evs',
          submitPartyAttributes E s' a (t + cooldownSeconds s) x' y' z' = Ok (s'', evs'))) /\
  (forall r s' evs,
     generateDungeonSeed E s a t r = Ok (s', evs) ->
     lastDecryptionRequestTime_at s' a = t /\
     lastSubmissionTime s' = lastSubmissionTime s /\
     (0 < t + cooldownSeconds s -> t + cooldownSeconds s <= MAX_UINT256 ->
      forall r',
        generateDungeonSeed E s' a (t + cooldownSeconds s - 1) r' = Err CooldownActive /\
        exists s'' evs',
          generateDungeonSeed E s' a (t + cooldownSeconds s) r' = Ok (s'', evs'))) /\
  (forall tx a',
     lastSubmissionTime_at (step E s tx) a' <> lastSubmissionTime_at s a' ->
     (exists x y z, tx_call tx = SubmitPartyAttributes x y z) /\
     tx_sender tx = a' /\
     (exists s' evs, exec E s tx = Ok (s', evs)) /\
     lastSubmissionTime_at (step E s tx) a' = tx_timestamp tx) /\
  (forall tx a',
     lastDecryptionRequestTime_at (step E s tx) a' <> lastDecryptionRequestTime_at s a' ->
     (exists r, tx_call tx = GenerateDungeonSeed r) /\
     tx_sender tx = a' /\
     (exists s' evs, exec E s tx = Ok (s', evs)) /\
     lastDecryptionRequestTime_at (step E s tx) a' = tx_timestamp tx).
Proof.
  intros Hp Hq. repeat apply conj.
  - intros x y z Hmax. now apply submit_cooldown_iff.
  - intros r Hmax. now apply generate_cooldown_iff.
  - intros x y z s' evs H.
    pose proof (submit_post E _ _ _ _ _ _ _ _ H) as (Hp' & Hq' & Hcd & Hlast & _ & Hdec & Ho).
    repeat apply conj; auto.
    intros Hpos Hmax x' y' z'. split.
    + apply submit_cooldown_iff; auto; rewrite Hlast, Hcd; [assumption | lia].
    + apply submit_succeeds; auto; rewrite Hlast, Hcd; [assumption | lia].
  - intros r s' evs H.
    pose proof (generate_post E _ _ _ _ _ _ H) as (Hp' & Hq' & Hcd & Hlast & _ & Hsub & Ho).
    repeat apply conj; auto.
    intros Hpos Hmax r'. split.
    + apply generate_cooldown_iff; auto; rewrite Hlast, Hcd; [assumption | lia].
    + apply generate_succeeds; auto; rewrite Hlast, Hcd; [assumption | lia].
  - intros tx a'. apply lastSubmissionTime_changes.
  - intros tx a'. apply lastDecryptionRequestTime_changes.
Qed.

Lemma cooldown_after_gates_witness :
  submitPartyAttributes Plain.env Cooldown.s6 1 129 1 1 1 = Err CooldownActive /\
  exists s'' evs', submitPartyAttributes Plain.env Cooldown.s6 1 130 1 1 1 = Ok (s'', evs').
Proof.
  assert (Hp : providers_at TwoOpen.s1 1 = true) by (vm_compute; reflexivity).
  assert (Hq : paused TwoOpen.s1 = false) by (vm_compute; reflexivity).
  destruct (cooldown_after_gates Plain.env TwoOpen.s1 1 100 Hp Hq) as (_ & _ & H & _).
  destruct (H 5 3 4 Cooldown.s6 [Event.PartyAttributesSubmitted 1 1]) as (_ & _ & Hb).
  - vm_compute. reflexivity.
  - apply (Hb ltac:(vm_compute; reflexivity) ltac:(vm_compute; discriminate) 1 1 1).
Defined.

(** * BatchLedger *)

(** C4, as stated, fails: after two calls of [openBatch] in a row, the
    records of batch 1 and of batch 2 both have [open = true]. *)
Lemma two_batches_open :
  reachable Plain.env TwoOpen.s2 /\
  currentBatchId TwoOpen.s2 = 2 /\
  batches TwoOpen.s2 !! 1 = Some (mkBatch 1 true 0 0 0 0) /\
  batches TwoOpen.s2 !! 2 = Some (mkBatch 2 true 0 0 0 0) /\
  open (batches_at TwoOpen.s2 1) = true /\
  open (batches_at TwoOpen.s2 2) = true.
Proof.
  split; [apply reachable_run, reachable_init |].
  vm_compute. repeat split; reflexivity.
Qed.

(** C4, amended. In every reachable state a batch record with [open = true]
    has its id between 1 and [currentBatchId], but more than one record can
    be open: when [openBatch] is called while the current batch is open,
    [currentBatchId] advances by one and the new batch is created open under
    the new id, while the superseded record is left exactly as it was, its
    [open] flag still set. The superseded batch is retired only by the
    advance of [currentBatchId]: no successful call changes a batch record
    other than the current one, and [currentBatchId] never decreases. *)
Theorem superseded_batch_keeps_open_flag (E : External) (s : State) :
  reachable E s ->
  (forall k, open (batches_at s k) = true ->
     1 <= k <= currentBatchId s /\ id (batches_at s k) = k) /\
  (forall a s' evs,
     openBatch s a = Ok (s', evs) ->
     open (batches_at s (currentBatchId s)) = true ->
     currentBatchId s' = currentBatchId s + 1 /\
     batches_at s' (currentBatchId s') = mkBatch (currentBatchId s + 1) true 0 0 0 0 /\
     batches_at s' (currentBatchId s) = batches_at s (currentBatchId s) /\
     open (batches_at s' (currentBatchId s)) = true) /\
  (forall tx s' evs,
     exec E s tx = Ok (s', evs) ->
     currentBatchId s <= currentBatchId s' /\
     forall k, k <> currentBatchId s' -> batches_at s' k = batches_at s k).
Proof.
  intros Hr. pose proof (reachable_wf E s Hr) as (Hcur & Hb & _).
  split; [| split].
  - intros k Hk. apply batches_at_open in Hk. destruct (Hb _ _ Hk). auto.
  - intros a s' evs H Hopen. apply openBatch_ok in H. rewrite Hopen in H.
    destruct H as (_ & Hc' & Hb' & _).
    assert (Hsame : batches_at s' (currentBatchId s) = batches_at s (currentBatchId s)).
    { unfold batches_at. rewrite Hb', lookup_insert_ne by lia. reflexivity. }
    repeat split.
    + exact Hc'.
    + unfold batches_at. rewrite Hc', Hb', lookup_insert_eq. reflexivity.
    + exact Hsame.
    + rewrite Hsame. exact Hopen.
  - intros tx s' evs H. split.
    + exact (exec_currentBatchId_mono E _ _ _ _ H).
    + intros k Hk. unfold batches_at. now rewrite (exec_frame_batches E _ _ _ _ k H Hk).
Qed.

Lemma superseded_batch_keeps_open_flag_witness :
  currentBatchId TwoOpen.s2 = 2 /\ open (batches_at TwoOpen.s2 1) = true.
Proof.
  pose proof (superseded_batch_keeps_open_flag Plain.env TwoOpen.s1
                (reachable_run Plain.env _ _ (reachable_init Plain.env 1))) as (_ & H & _).
  destruct (H 1 TwoOpen.s2 [Event.BatchOpened 2]) as (Hc & _ & _ & Ho).
  - vm_compute. reflexivity.
  - vm_compute. reflexivity.
  - split; [exact Hc | exact Ho].
Defined.

(** C5, as stated, fails: batch 1 was opened and closed; the next
    [openBatch] does not advance [currentBatchId] and creates the new batch
    under id 1 again, open and with the handles reset. *)
Lemma closed_batch_id_reopened :
  reachable Plain.env Reopen.s3 /\
  currentBatchId Reopen.s3 = 1 /\
  batches Reopen.s3 !! 1 = Some (mkBatch 1 false 5 3 4 0) /\
  step Plain.env Reopen.s3 (Plain.tx 1 300 OpenBatch)
    = set_batches (<[1 := mkBatch 1 true 0 0 0 0]> (batches Reopen.s3)) Reopen.s3 /\
  currentBatchId (step Plain.env Reopen.s3 (Plain.tx 1 300 OpenBatch)) = 1 /\
  batches (step Plain.env Reopen.s3 (Plain.tx 1 300 OpenBatch)) !! 1
    = Some (mkBatch 1 true 0 0 0 0).
Proof.
  split; [apply reachable_run, reachable_init |].
  vm_compute. repeat split; reflexivity.
Qed.

(** C5, amended. [openBatch] never overwrites a batch that is open: if the
    current batch is open, [currentBatchId] is incremented before the new
    batch is created, and the incremented id has never held a batch. If the
    current batch is not open (it was never opened, or it was opened and has
    been closed), [currentBatchId] stays and the new batch is created under
    the same id, open and with zeroed handles. *)
Theorem openBatch_fresh_id_only_when_open (E : External) (s : State)
    (a : address) (s' : State) (evs : list Event.t) :
  reachable E s ->
  openBatch s a = Ok (s', evs) ->
  batches s' !! currentBatchId s'
    = Some (mkBatch (currentBatchId s') true 0 0 0 0) /\
  (open (batches_at s (currentBatchId s)) = true ->
     currentBatchId s' = currentBatchId s + 1 /\
     batches s !! (currentBatchId s + 1) = None) /\
  (open (batches_at s (currentBatchId s)) = false ->
     currentBatchId s' = currentBatchId s).
Proof.
  intros Hr H. pose proof (reachable_wf E s Hr) as (Hcur & Hb & _).
  apply openBatch_ok in H. cbv zeta in H. destruct H as (_ & Hc' & Hb' & _).
  split; [| split].
  - rewrite Hb', Hc'. apply lookup_insert_eq.
  - intros Hopen. rewrite Hopen in Hc'. split; [exact Hc' |].
    destruct (batches s !! (currentBatchId s + 1)) as [b |] eqn:Hl; [| reflexivity].
    destruct (Hb _ _ Hl) as [_ ?]. lia.
  - intros Hopen. rewrite Hopen in Hc'. exact Hc'.
Qed.

Lemma openBatch_fresh_id_only_when_open_witness :
  batches TwoOpen.s2 !! currentBatchId TwoOpen.s2
    = Some (mkBatch (currentBatchId TwoOpen.s2) true 0 0 0 0).
Proof.
  refine (proj1 (openBatch_fresh_id_only_when_open Plain.env TwoOpen.s1
                   1 TwoOpen.s2 [Event.BatchOpened 2] _ _)).
  - apply reachable_run, reachable_init.
  - vm_compute. reflexivity.
Defined.

(** * Seed generation *)

Section Seed.

Variable E : External.

Lemma seed_plaintext (dec : uint256 -> N) (S A I : uint256) :
  homomorphic E dec ->
  dec (FHE_add E (FHE_mul E S A) I) = (dec S * dec A + dec I) mod 2 ^ 32.
Proof.
  intros [Hadd Hmul]. rewrite Hadd, Hmul.
  rewrite N.Div0.add_mod_idemp_l. reflexivity.
Qed.

End Seed.

(** C6. A successful [generateDungeonSeed] stores on the current batch the
    handle [FHE.add(FHE.mul(strength, agility), intellect)] computed from the
    accumulator handles the batch had when the call was made, and leaves the
    three accumulator handles (and the id and the [open] flag) as they were.
    Read through any plaintext interpretation for which the FHE operations
    are homomorphic, the seed is strength * agility + intellect on 32 bits. *)
Theorem generateDungeonSeed_seed (E : External) (s : State) (a : address)
    (t r : uint256) (s' : State) (evs : list Event.t) :
  generateDungeonSeed E s a t r = Ok (s', evs) ->
  let b := batches_at s (currentBatchId s) in
  let b' := batches_at s' (currentBatchId s) in
  currentBatchId s' = currentBatchId s /\
  dungeonSeed b'
    = FHE_add E (FHE_mul E (totalEncryptedPartyStrength b) (totalEncryptedPartyAgility b))
                (totalEncryptedPartyIntellect b) /\
  totalEncryptedPartyStrength b' = totalEncryptedPartyStrength b /\
  totalEncryptedPartyAgility b' = totalEncryptedPartyAgility b /\
  totalEncryptedPartyIntellect b' = totalEncryptedPartyIntellect b /\
  id b' = id b /\ open b' = open b /\
  (forall k, k <> currentBatchId s -> batches_at s' k = batches_at s k) /\
  (forall dec, homomorphic E dec ->
     dec (dungeonSeed b')
       = (dec (totalEncryptedPartyStrength b) * dec (totalEncryptedPartyAgility b)
          + dec (totalEncryptedPartyIntellect b)) mod 2 ^ 32).
Proof.
  intros H b b'. apply generateDungeonSeed_ok in H. destruct H as [_ Hs'].
  fold b in Hs'.
  assert (Hb' : b' = set_dungeonSeed
                       (FHE_add E (FHE_mul E (totalEncryptedPartyStrength b)
                                             (totalEncryptedPartyAgility b))
                                  (totalEncryptedPartyIntellect b)) b).
  { subst b' s'. unfold batches_at at 1. cbn. now rewrite lookup_insert_eq. }
  rewrite Hb'. cbn. repeat split.
  - now rewrite Hs'.
  - intros k Hk. rewrite Hs'. unfold batches_at. cbn. now rewrite lookup_insert_ne.
  - intros dec Hd. now apply seed_plaintext.
Qed.

Lemma generateDungeonSeed_seed_witness :
  batches_at Party.s4 1 = mkBatch 1 true 9 8 6 0 /\
  batches_at Party.s5 1 = mkBatch 1 true 9 8 6 78 /\
  dungeonSeed (batches_at Party.s5 1) = (9 * 8 + 6) mod 2 ^ 32.
Proof.
  assert (Hx : generateDungeonSeed Plain.env Party.s4 1 200 7
               = Ok (Party.s5, [Event.DungeonSeedGenerated 1; Event.DecryptionRequested 7 1]))
    by (vm_compute; reflexivity).
  destruct (generateDungeonSeed_seed Plain.env Party.s4 1 200 7 _ _ Hx)
    as (_ & _ & _ & _ & _ & _ & _ & _ & Hdec).
  split; [vm_compute; reflexivity |].
  split; [vm_compute; reflexivity |].
  exact (Hdec (fun h => h) plain_homomorphic).
Defined.

(** * The decryption callback *)

Section Callback.

Variable E : External.


Lemma processed_context_dom s r :
  processed (decryptionContexts_at s r) = true -> is_Some (decryptionContexts s !! r).
Proof.
  unfold decryptionContexts_at. destruct (decryptionContexts s !! r); [eauto | discriminate].
Qed.


End Callback.

(** C9, as stated, fails: address 55 is not the decryption oracle (99), and
    its call with the oracle's answer and an accepted proof goes through and
    marks the context as processed. *)
Lemma callback_accepted_from_stranger :
  reachable Plain.env Party.s5 /\
  55 <> decryptionOracle Plain.env /\
  processed (decryptionContexts_at Party.s5 7) = false /\
  myCallback Plain.env Party.s5 55 7 Reveal.cleartexts Plain.proof1
    = Ok (set_decryptionContexts
            (<[7 := set_processed true (decryptionContexts_at Party.s5 7)]>
               (decryptionContexts Party.s5)) Party.s5,
          [Event.DecryptionCompleted 7 1 9 8 6 78]) /\
  processed (decryptionContexts_at
               (step Plain.env Party.s5
                  (Plain.tx 55 250 (MyCallback 7 Reveal.cleartexts Plain.proof1))) 7) = true.
Proof.
  split; [apply reachable_stepped, reachable_run, reachable_init |].
  vm_compute. repeat split; try reflexivity; discriminate.
Qed.

(** C9, amended. [myCallback] is public and carries no check of the caller:
    its outcome is the same for every caller, and it succeeds, for any
    caller, exactly when the context is not processed, its batch exists,
    the hash of the batch's current handles equals the stored one, the
    proof is accepted by [FHE.checkSignatures] and the cleartexts decode to
    four words; a call that fails leaves the storage as it was. The result
    is authenticated by the proof alone. *)
Theorem myCallback_any_caller (E : External) (s : State) (c : address)
    (r : uint256) (ct p : list Byte.byte) :
  (forall c', myCallback E s c' r ct p = myCallback E s c r ct p) /\
  (forall t e, myCallback E s c r ct p = Err e ->
               step E s (mkTx c t (MyCallback r ct p)) = s) /\
  ((exists s' evs, myCallback E s c r ct p = Ok (s', evs)) <->
   (processed (decryptionContexts_at s r) = false /\
    id (batches_at s (batchId (decryptionContexts_at s r))) <> 0 /\
    _hashCiphertexts E (ciphertexts_of (batches_at s (batchId (decryptionContexts_at s r))))
      = stateHash (decryptionContexts_at s r) /\
    checkSignatures E r ct p = true /\
    (128 <= length ct)%nat)).
Proof.
  split; [reflexivity |]. split; [| split].
  - intros t e H. unfold step, exec. cbn. now rewrite H.
  - intros (s' & evs & H). apply myCallback_ok in H. cbv zeta in H. tauto.
  - intros (H1 & H2 & H3 & H4 & H5). eexists _, _. apply myCallback_ok. cbv zeta.
    repeat split; eauto.
Qed.

Lemma myCallback_any_caller_witness :
  exists s' evs,
    myCallback Plain.env Party.s5 55 7 Reveal.cleartexts Plain.proof1 = Ok (s', evs).
Proof.
  apply (proj2 (proj2 (myCallback_any_caller Plain.env Party.s5 55 7
                         Reveal.cleartexts Plain.proof1))).
  vm_compute. repeat split; try reflexivity; try discriminate.
Defined.






(** * Further properties of the contract *)

(** ** Administration *)

Section Administration.

Variable E : External.

Lemma owner_only_not_owner s tx :
  is_owner_only (tx_call tx) = true -> tx_sender tx <> owner s ->
  exec E s tx = Err NotOwner.
Proof.
  intros Hc Hne. apply N.eqb_neq in Hne. unfold exec.
  destruct (tx_call tx); try discriminate Hc; unfold_entry; now rewrite Hne.
Qed.

Lemma not_owner_only_owner_only s tx :
  exec E s tx = Err NotOwner ->
  is_owner_only (tx_call tx) = true /\ tx_sender tx <> owner s.
Proof.
  intros H. unfold exec in H.
  destruct (tx_call tx); unfold_entry; unfold abi_decode4 in H; split_guards H;
    reflect_guards; simplify_eq; split; solve [reflexivity | assumption].
Qed.

End Administration.

(** X1. The seven calls with the modifier [onlyOwner] (the five
    administrative calls, [openBatch] and [closeBatch]) revert with
    [NotOwner] for every caller other than the owner, whatever the pause
    flag and the batch are, and no other call ever reverts with
    [NotOwner]. *)
Theorem notOwner_exactly_for_strangers (E : External) (s : State) (tx : Tx) :
  exec E s tx = Err NotOwner
  <-> is_owner_only (tx_call tx) = true /\ tx_sender tx <> owner s.
Proof.
  split.
  - apply not_owner_only_owner_only.
  - intros [Hc Hne]. now apply owner_only_not_owner.
Qed.

Lemma notOwner_exactly_for_strangers_witness :
  exec Plain.env PausedFirst.s0 (Plain.tx 7 5 OpenBatch) = Err NotOwner.
Proof.
  apply (proj2 (notOwner_exactly_for_strangers Plain.env PausedFirst.s0
                  (Plain.tx 7 5 OpenBatch))).
  split; [reflexivity | vm_compute; discriminate].
Defined.

(** X2. [transferOwnership] by the owner always succeeds, also towards the
    zero address or the owner itself: the new owner is stored, one
    [OwnershipTransferred] event is emitted and nothing else changes. In
    particular the provider roster is not touched: the previous owner keeps
    its provider entry and the new owner gets none. When the new owner is
    a different address, the previous owner is turned away with [NotOwner]
    by every owner-only call from then on. *)
Theorem transferOwnership_hands_over (E : External) (s : State) (newOwner : address) :
  exists s',
    transferOwnership s (owner s) newOwner
      = Ok (s', [Event.OwnershipTransferred (owner s) newOwner]) /\
    s' = set_owner newOwner s /\
    owner s' = newOwner /\
    (forall a, providers_at s' a = providers_at s a) /\
    (newOwner <> owner s ->
     forall t c, is_owner_only c = true ->
                 exec E s' (mkTx (owner s) t c) = Err NotOwner).
Proof.
  eexists. split; [| split; [reflexivity | split; [reflexivity | split]]].
  - unfold transferOwnership, onlyOwner, revert_if. rewrite N.eqb_refl. reflexivity.
  - reflexivity.
  - intros Hne t c Hc. apply owner_only_not_owner; cbn; auto.
Qed.

Lemma transferOwnership_hands_over_witness :
  exec Plain.env NewOwner.s8 (Plain.tx 1 60 (AddProvider 1)) = Err NotOwner.
Proof.
  destruct (transferOwnership_hands_over Plain.env TwoOpen.s1 2)
    as (s' & Hx & -> & _ & _ & H).
  apply (H ltac:(vm_compute; discriminate) 60 (AddProvider 1) eq_refl).
Defined.

(** X3. [addProvider] and [removeProvider], called by the owner, always
    succeed and set the roster entry of the given address to true,
    respectively false, leaving every other entry as it was; they can be
    repeated and they apply to the owner's own entry as well. After
    [removeProvider(p)] both provider-gated calls of [p] fail with
    [NotProvider]. *)
Theorem provider_roster_updates (E : External) (s : State) (p : address) :
  (exists s',
     addProvider s (owner s) p = Ok (s', [Event.ProviderAdded p]) /\
     providers_at s' p = true /\
     (forall a, a <> p -> providers_at s' a = providers_at s a)) /\
  (exists s',
     removeProvider s (owner s) p = Ok (s', [Event.ProviderRemoved p]) /\
     providers_at s' p = false /\
     (forall a, a <> p -> providers_at s' a = providers_at s a) /\
     (forall t x y z, submitPartyAttributes E s' p t x y z = Err NotProvider) /\
     (forall t r, generateDungeonSeed E s' p t r = Err NotProvider)).
Proof.
  split; eexists.
  - split; [unfold addProvider, onlyOwner, revert_if; rewrite N.eqb_refl; reflexivity |].
    unfold providers_at. cbn. rewrite lookup_insert_eq. split; [reflexivity |].
    intros a Ha. now rewrite lookup_insert_ne.
  - split; [unfold removeProvider, onlyOwner, revert_if; rewrite N.eqb_refl; reflexivity |].
    assert (Hp : providers_at (set_providers (<[p:=false]> (providers s)) s) p = false).
    { unfold providers_at. cbn. now rewrite lookup_insert_eq. }
    split; [exact Hp |]. split; [| split].
    + intros a Ha. unfold providers_at. cbn. now rewrite lookup_insert_ne.
    + intros t x y z. now apply submit_not_provider.
    + intros t r. now apply generate_not_provider.
Qed.

Lemma provider_roster_updates_witness :
  submitPartyAttributes Plain.env
    (step Plain.env Party.s4 (Plain.tx 1 150 (RemoveProvider 2))) 2 500 1 1 1
  = Err NotProvider.
Proof.
  destruct (provider_roster_updates Plain.env Party.s4 2) as (_ & s' & Hx & _ & _ & H & _).
  assert (Hs : step Plain.env Party.s4 (Plain.tx 1 150 (RemoveProvider 2)) = s').
  { unfold step, exec. cbn [tx_call tx_sender Plain.tx].
    change 1 with (owner Party.s4) at 1. now rewrite Hx. }
  rewrite Hs. apply H.
Defined.

Section AdministrationOnly.

Variable E : External.

(** A call that is not administrative leaves owner, roster, pause flag and
    cooldown as they were. *)
Lemma non_admin_keeps_roles s tx s' evs :
  is_admin (tx_call tx) = false ->
  exec E s tx = Ok (s', evs) ->
  owner s' = owner s /\ providers s' = providers s /\
  paused s' = paused s /\ cooldownSeconds s' = cooldownSeconds s.
Proof.
  intros Ha H. unfold exec in H.
  destruct (tx_call tx); try discriminate Ha;
    unfold_entry; unfold abi_decode4 in H; split_guards H; simplify_eq; cbn; auto.
Qed.

(** What an administrative call can change, and for whom. *)
Lemma admin_changes s tx s' evs :
  is_admin (tx_call tx) = true ->
  exec E s tx = Ok (s', evs) ->
  tx_sender tx = owner s /\
  (owner s' <> owner s -> exists n, tx_call tx = TransferOwnership n /\ owner s' = n) /\
  (forall a, providers_at s' a <> providers_at s a ->
     (tx_call tx = AddProvider a /\ providers_at s' a = true) \/
     (tx_call tx = RemoveProvider a /\ providers_at s' a = false)) /\
  (paused s' <> paused s -> tx_call tx = SetPaused (paused s')) /\
  (cooldownSeconds s' <> cooldownSeconds s ->
     tx_call tx = SetCooldownSeconds (cooldownSeconds s')).
Proof.
  intros Ha H. unfold exec in H.
  destruct (tx_call tx); try discriminate Ha;
    unfold_entry; split_guards H; simplify_eq; reflect_guards; cbn;
    (split; [assumption |]); repeat split; try congruence; eauto.
  all: intros a; unfold providers_at; cbn; rewrite ?lookup_insert; repeat case_decide;
    subst; cbn; intros Hne; solve [congruence | auto].
Qed.

End AdministrationOnly.

(** X4. Owner, provider roster, pause flag and cooldown duration change
    only through a successful administrative call sent by the current
    owner, each through its own call: the owner by [transferOwnership], the
    roster entry of [a] by [addProvider(a)] or [removeProvider(a)], the
    pause flag by [setPaused] and the cooldown by [setCooldownSeconds]. No
    other transaction, and no reverted one, touches them. *)
Theorem roles_change_only_by_owner (E : External) (s : State) (tx : Tx) :
  (owner (step E s tx) <> owner s ->
     tx_sender tx = owner s /\ tx_call tx = TransferOwnership (owner (step E s tx))) /\
  (forall a, providers_at (step E s tx) a <> providers_at s a ->
     tx_sender tx = owner s /\
     ((tx_call tx = AddProvider a /\ providers_at (step E s tx) a = true) \/
      (tx_call tx = RemoveProvider a /\ providers_at (step E s tx) a = false))) /\
  (paused (step E s tx) <> paused s ->
     tx_sender tx = owner s /\ tx_call tx = SetPaused (paused (step E s tx))) /\
  (cooldownSeconds (step E s tx) <> cooldownSeconds s ->
     tx_sender tx = owner s /\
     tx_call tx = SetCooldownSeconds (cooldownSeconds (step E s tx))).
Proof.
  unfold step. destruct (exec E s tx) as [[s' evs] |] eqn:H.
  2: { repeat split; congruence. }
  destruct (is_admin (tx_call tx)) eqn:Ha.
  - destruct (admin_changes E _ _ _ _ Ha H) as (Hs & Ho & Hp & Hq & Hc).
    split; [| split; [| split]].
    + intros Hne. destruct (Ho Hne) as (n & -> & ->). auto.
    + intros a Hne. auto.
    + intros Hne. auto.
    + intros Hne. auto.
  - destruct (non_admin_keeps_roles E _ _ _ _ Ha H) as (Ho & Hp & Hq & Hc).
    unfold providers_at. rewrite Ho, Hp, Hq, Hc. repeat split; congruence.
Qed.

Lemma roles_change_only_by_owner_witness :
  tx_sender (Plain.tx 1 50 (TransferOwnership 2)) = owner TwoOpen.s1 /\
  tx_call (Plain.tx 1 50 (TransferOwnership 2)) = TransferOwnership 2.
Proof.
  apply (proj1 (roles_change_only_by_owner Plain.env TwoOpen.s1
                  (Plain.tx 1 50 (TransferOwnership 2)))).
  vm_compute. discriminate.
Defined.

(** X5. [setPaused] is never blocked by the pause flag: the owner can set
    it to either value in every state. Setting the value it already has
    changes nothing and emits no event; setting the other value stores it
    and emits exactly [ContractPaused] or [ContractUnpaused]. While the
    flag is set, the owner's [openBatch] and [closeBatch] revert with
    [Paused], but the five administrative calls carry no pause gate and
    still succeed. *)
Theorem setPaused_switch (E : External) (s : State) (b : bool) :
  (paused s = b -> setPaused s (owner s) b = Ok (s, [])) /\
  (paused s <> b ->
     setPaused s (owner s) b
       = Ok (set_paused b s,
             [if b then Event.ContractPaused else Event.ContractUnpaused])) /\
  (paused s = true ->
     openBatch s (owner s) = Err Paused /\
     closeBatch s (owner s) = Err Paused /\
     forall t c, is_admin c = true ->
                 exists s' evs, exec E s (mkTx (owner s) t c) = Ok (s', evs)).
Proof.
  split; [| split].
  - intros <-. unfold setPaused, onlyOwner, revert_if. rewrite N.eqb_refl. cbn.
    now rewrite Bool.eqb_reflx.
  - intros Hne. unfold setPaused, onlyOwner, revert_if. rewrite N.eqb_refl. cbn.
    destruct (paused s), b; try congruence; reflexivity.
  - intros Hp. repeat split.
    + unfold openBatch, onlyOwner, whenNotPaused, revert_if.
      rewrite N.eqb_refl, Hp. reflexivity.
    + unfold closeBatch, onlyOwner, whenNotPaused, revert_if.
      rewrite N.eqb_refl, Hp. reflexivity.
    + intros t c Hc. unfold exec.
      destruct c; try discriminate Hc; cbn; unfold_entry; rewrite N.eqb_refl; cbn; eauto.
      destruct (negb _); eauto.
Qed.

Lemma setPaused_switch_witness :
  openBatch PausedFirst.s0 (owner PausedFirst.s0) = Err Paused /\
  setPaused PausedFirst.s0 (owner PausedFirst.s0) false
    = Ok (set_paused false PausedFirst.s0, [Event.ContractUnpaused]).
Proof.
  destruct (setPaused_switch Plain.env PausedFirst.s0 false) as (_ & Hflip & _).
  destruct (setPaused_switch Plain.env PausedFirst.s0 true) as (_ & _ & Hp).
  split.
  - apply Hp. vm_compute. reflexivity.
  - apply Hflip. vm_compute. discriminate.
Defined.

(** ** Closing a batch *)

(** X6. [closeBatch] reverts with [BatchClosed] when the current batch is
    not open, which includes the time before the first [openBatch]. When it
    succeeds it clears the [open] flag of the current batch and nothing
    else: id, accumulators and seed of the batch, the current id and the
    contexts stay. Afterwards a second [closeBatch], and the submission and
    the seed request of a provider whose cooldown has run out, all revert
    with [BatchClosed]. *)
Theorem closeBatch_only_clears_open (E : External) (s : State) :
  paused s = false ->
  (open (batches_at s (currentBatchId s)) = false ->
     closeBatch s (owner s) = Err BatchClosed) /\
  (open (batches_at s (currentBatchId s)) = true ->
     exists s',
       closeBatch s (owner s) = Ok (s', [Event.BatchClosed (currentBatchId s)]) /\
       currentBatchId s' = currentBatchId s /\
       batches_at s' (currentBatchId s) = set_open false (batches_at s (currentBatchId s)) /\
       (forall k, k <> currentBatchId s -> batches_at s' k = batches_at s k) /\
       decryptionContexts s' = decryptionContexts s /\
       closeBatch s' (owner s') = Err BatchClosed /\
       (forall a t x y z,
          providers_at s a = true ->
          lastSubmissionTime_at s a + cooldownSeconds s <= MAX_UINT256 ->
          lastSubmissionTime_at s a + cooldownSeconds s <= t ->
          submitPartyAttributes E s' a t x y z = Err BatchClosed) /\
       (forall a t r,
          providers_at s a = true ->
          lastDecryptionRequestTime_at s a + cooldownSeconds s <= MAX_UINT256 ->
          lastDecryptionRequestTime_at s a + cooldownSeconds s <= t ->
          generateDungeonSeed E s' a t r = Err BatchClosed)).
Proof.
  intros Hq. split.
  - intros Ho. unfold closeBatch, onlyOwner, whenNotPaused, revert_if.
    now rewrite N.eqb_refl, Hq, Ho.
  - intros Ho. eexists. split.
    { unfold closeBatch, onlyOwner, whenNotPaused, revert_if.
      rewrite N.eqb_refl, Hq, Ho. reflexivity. }
    set (s' := set_batches _ s).
    assert (Hb : batches_at s' (currentBatchId s)
                 = set_open false (batches_at s (currentBatchId s))).
    { unfold batches_at at 1. subst s'. cbn. now rewrite lookup_insert_eq. }
    split; [reflexivity |]. split; [exact Hb |]. split; [| split; [reflexivity |]].
    { intros k Hk. unfold batches_at. subst s'. cbn. now rewrite lookup_insert_ne. }
    split; [| split].
    + unfold closeBatch, onlyOwner, whenNotPaused, revert_if.
      change (currentBatchId s') with (currentBatchId s). rewrite Hb.
      change (owner s') with (owner s). change (paused s') with (paused s).
      now rewrite N.eqb_refl, Hq.
    + intros a t x y z Hp Hmax Ht. apply N.leb_le in Hmax. apply N.ltb_ge in Ht.
      unfold submitPartyAttributes, onlyProvider, whenNotPaused, checked_add, revert_if.
      change (currentBatchId s') with (currentBatchId s). rewrite Hb.
      change (providers_at s' a) with (providers_at s a).
      change (lastSubmissionTime_at s' a) with (lastSubmissionTime_at s a).
      change (cooldownSeconds s') with (cooldownSeconds s).
      change (paused s') with (paused s).
      rewrite Hp, Hq, Hmax. cbn. now rewrite Ht.
    + intros a t r Hp Hmax Ht. apply N.leb_le in Hmax. apply N.ltb_ge in Ht.
      unfold generateDungeonSeed, onlyProvider, whenNotPaused, checked_add, revert_if.
      change (currentBatchId s') with (currentBatchId s). rewrite Hb.
      change (providers_at s' a) with (providers_at s a).
      change (lastDecryptionRequestTime_at s' a) with (lastDecryptionRequestTime_at s a).
      change (cooldownSeconds s') with (cooldownSeconds s).
      change (paused s') with (paused s).
      rewrite Hp, Hq, Hmax. cbn. now rewrite Ht.
Qed.

Lemma closeBatch_only_clears_open_witness :
  closeBatch (fst (constructor 1)) 1 = Err BatchClosed /\
  batches_at Reopen.s3 1 = mkBatch 1 false 5 3 4 0.
Proof.
  split.
  - apply (proj1 (closeBatch_only_clears_open Plain.env (fst (constructor 1)) eq_refl)).
    reflexivity.
  - vm_compute. reflexivity.
Defined.

(** ** The cooldown setting *)



(** ** Storage invariant and unknown requests *)

(** X8. In every reachable state the current batch id is at least 1, every
    batch record is stored under its own id, which lies between 1 and the
    current id (so no record is ever stored under id 0 or above the current
    id), and every stored decryption context refers to a batch id under
    which a record exists. *)
Theorem storage_wellformed (E : External) (s : State) :
  reachable E s ->
  1 <= currentBatchId s /\
  batches s !! 0 = None /\
  (forall k, currentBatchId s < k -> batches s !! k = None) /\
  (forall k b, batches s !! k = Some b -> id b = k /\ 1 <= k <= currentBatchId s) /\
  (forall r c, decryptionContexts s !! r = Some c ->
     1 <= batchId c <= currentBatchId s /\
     exists b, batches s !! batchId c = Some b /\ id b = batchId c).
Proof.
  intros Hr. destruct (reachable_wf E s Hr) as (Hcur & Hb & Hc).
  split; [exact Hcur |]. split; [| split; [| split; [exact Hb |]]].
  - destruct (batches s !! 0) as [b |] eqn:H0; [| reflexivity].
    destruct (Hb _ _ H0). lia.
  - intros k Hk. destruct (batches s !! k) as [b |] eqn:Hl; [| reflexivity].
    destruct (Hb _ _ Hl). lia.
  - intros r c Hl. destruct (Hc _ _ Hl) as [b Hbl]. destruct (Hb _ _ Hbl).
    split; [lia | eauto].
Qed.

Lemma storage_wellformed_witness :
  batches Reveal.s9 !! 0 = None.
Proof.
  assert (Hr : reachable Plain.env Reveal.s9)
    by apply reachable_run, reachable_stepped, reachable_run, reachable_init.
  destruct (storage_wellformed Plain.env Reveal.s9 Hr) as (_ & H0 & _). exact H0.
Defined.

(** X9. In every reachable state [myCallback] for a request id under which
    no context is stored reverts with [InvalidBatchId], whoever calls and
    whatever cleartexts and proof are passed: the absent context reads as
    batch 0, and no batch record has id 0. *)
Theorem unknown_request_rejected (E : External) (s : State) (r : uint256) :
  reachable E s ->
  decryptionContexts s !! r = None ->
  forall c ct p, myCallback E s c r ct p = Err InvalidBatchId.
Proof.
  intros Hr Hn c ct p. destruct (reachable_wf E s Hr) as (_ & Hb & _).
  unfold myCallback, decryptionContexts_at, batches_at, revert_if. rewrite Hn. cbn.
  destruct (batches s !! 0) as [b |] eqn:H0; [| reflexivity].
  destruct (Hb _ _ H0). lia.
Qed.

Lemma unknown_request_rejected_witness :
  myCallback Plain.env Party.s5 99 8 Reveal.cleartexts Plain.proof1 = Err InvalidBatchId.
Proof.
  apply unknown_request_rejected.
  - apply reachable_stepped, reachable_run, reachable_init.
  - vm_compute. reflexivity.
Defined.

(** ** Aggregation *)

Lemma batches_at_written o p q c l d x (m : gmap N Batch) k b n :
  batches_at (mkState o p q c l d x (<[k := b]> m) n) k = b.
Proof. unfold batches_at. cbn. now rewrite lookup_insert_eq. Qed.

Section Aggregation.

Variable E : External.
Variable dec : uint256 -> N.
Hypothesis Hdec : homomorphic E dec.

(** One transaction other than [openBatch]: the current id stays, an
    accepted submission adds its three handles, anything else leaves the
    accumulators of the current batch alone. *)
Lemma step_accumulators s tx :
  tx_call tx <> OpenBatch ->
  currentBatchId (step E s tx) = currentBatchId s /\
  let b := batches_at s (currentBatchId s) in
  let b' := batches_at (step E s tx) (currentBatchId s) in
  match tx_call tx, exec E s tx with
  | SubmitPartyAttributes x y z, Ok _ =>
      totalEncryptedPartyStrength b' = FHE_add E (totalEncryptedPartyStrength b) x /\
      totalEncryptedPartyAgility b' = FHE_add E (totalEncryptedPartyAgility b) y /\
      totalEncryptedPartyIntellect b' = FHE_add E (totalEncryptedPartyIntellect b) z
  | _, _ =>
      totalEncryptedPartyStrength b' = totalEncryptedPartyStrength b /\
      totalEncryptedPartyAgility b' = totalEncryptedPartyAgility b /\
      totalEncryptedPartyIntellect b' = totalEncryptedPartyIntellect b
  end.
Proof.
  intros Hno. unfold step.
  destruct (exec E s tx) as [[s' evs] |] eqn:H.
  2: { split; [reflexivity |]. cbv zeta. destruct (tx_call tx); repeat split. }
  destruct (is_admin (tx_call tx)) eqn:Ha.
  { destruct (admin_ok E _ _ _ _ Ha H) as (_ & Hb & Hc & _).
    split; [exact Hc |]. cbv zeta. unfold batches_at. rewrite Hb.
    destruct (tx_call tx); try discriminate Ha; repeat split. }
  unfold exec in H. destruct (tx_call tx) eqn:Hcall; try discriminate Ha; try congruence.
  - apply closeBatch_ok in H. destruct H as (_ & Hc & Hb & _).
    split; [exact Hc |]. cbv zeta.
    replace (batches_at s' (currentBatchId s))
      with (set_open false (batches_at s (currentBatchId s)))
      by (unfold batches_at at 2; now rewrite Hb, lookup_insert_eq).
    repeat split.
  - apply submitPartyAttributes_ok in H. cbv zeta in H. destruct H as [_ ->].
    split; [reflexivity |]. cbv zeta.
    rewrite batches_at_written. repeat split.
  - apply generateDungeonSeed_ok in H. cbv zeta in H. destruct H as [_ ->].
    split; [reflexivity |]. cbv zeta.
    rewrite batches_at_written. repeat split.
  - apply myCallback_ok in H. cbv zeta in H. destruct H as (_ & _ & _ & _ & _ & -> & _).
    split; [reflexivity |]. cbv zeta. repeat split.
Qed.

Lemma add_mod32 a b c :
  ((a + b) mod 2 ^ 32 + c) mod 2 ^ 32 = (a + (b + c)) mod 2 ^ 32.
Proof. rewrite N.Div0.add_mod_idemp_l. f_equal. lia. Qed.

Lemma accumulators_run txs : forall s,
  Forall (fun tx => tx_call tx <> OpenBatch) txs ->
  currentBatchId (run E s txs) = currentBatchId s /\
  let b := batches_at s (currentBatchId s) in
  let '(x, y, z) := accepted_sum E dec s txs in
  totals32 dec (batches_at (run E s txs) (currentBatchId s))
  = ((dec (totalEncryptedPartyStrength b) + x) mod 2 ^ 32,
     (dec (totalEncryptedPartyAgility b) + y) mod 2 ^ 32,
     (dec (totalEncryptedPartyIntellect b) + z) mod 2 ^ 32).
Proof.
  destruct Hdec as [Hadd _].
  induction txs as [| tx txs IH]; intros s Hall.
  - split; [reflexivity |]. cbn. unfold totals32. now rewrite !N.add_0_r.
  - apply Forall_cons in Hall. destruct Hall as [Hno Hall].
    destruct (step_accumulators s tx Hno) as [Hc Hstep]. cbv zeta in Hstep.
    destruct (IH (step E s tx) Hall) as [Hc' Hrest]. cbv zeta in Hrest.
    change (run E s (tx :: txs)) with (run E (step E s tx) txs).
    split; [congruence |]. cbv zeta.
    change (accepted_sum E dec s (tx :: txs))
      with (let '(x, y, z) := accepted_sum E dec (step E s tx) txs in
            match tx_call tx, exec E s tx with
            | SubmitPartyAttributes a b c, Ok _ => (dec a + x, dec b + y, dec c + z)
            | _, _ => (x, y, z)
            end).
    rewrite Hc in Hrest.
    destruct (accepted_sum E dec (step E s tx) txs) as [[x y] z].
    rewrite Hrest.
    destruct (tx_call tx), (exec E s tx) as [[? ?] |];
      destruct Hstep as (-> & -> & ->); try reflexivity.
    rewrite !Hadd, !add_mod32. reflexivity.
Qed.

End Aggregation.

(** X10. Homomorphic totals. Along any sequence of transactions without
    [openBatch] (submissions of several providers, reverted calls, seed
    requests, callbacks, [closeBatch] and administrative calls may be mixed
    in), the current batch stays the same and each of its three
    accumulators, read through a plaintext interpretation for which
    [FHE.add] is homomorphic, is its value before plus the sum of the
    accepted contributions, modulo [2^32]. Starting from a freshly opened
    batch whose zero handles read as 0, the accumulators read as the sums
    of the accepted contributions. *)
Theorem accumulators_sum (E : External) (dec : uint256 -> N) (s : State) (txs : list Tx) :
  homomorphic E dec ->
  Forall (fun tx => tx_call tx <> OpenBatch) txs ->
  currentBatchId (run E s txs) = currentBatchId s /\
  let b := batches_at s (currentBatchId s) in
  let '(x, y, z) := accepted_sum E dec s txs in
  totals32 dec (batches_at (run E s txs) (currentBatchId s))
  = ((dec (totalEncryptedPartyStrength b) + x) mod 2 ^ 32,
     (dec (totalEncryptedPartyAgility b) + y) mod 2 ^ 32,
     (dec (totalEncryptedPartyIntellect b) + z) mod 2 ^ 32) /\
  (dec 0 = 0 ->
   totalEncryptedPartyStrength b = 0 -> totalEncryptedPartyAgility b = 0 ->
   totalEncryptedPartyIntellect b = 0 ->
   totals32 dec (batches_at (run E s txs) (currentBatchId s))
   = (x mod 2 ^ 32, y mod 2 ^ 32, z mod 2 ^ 32)).
Proof.
  intros Hd Hall. destruct (accumulators_run E dec Hd txs s Hall) as [Hc H].
  split; [exact Hc |]. cbv zeta in *.
  destruct (accepted_sum E dec s txs) as [[x y] z]. split; [exact H |].
  intros H0 Hs Ha Hi. rewrite H, Hs, Ha, Hi, H0. reflexivity.
Qed.

Lemma accumulators_sum_witness :
  totals32 (fun h => h)
    (batches_at (run Plain.env TwoOpen.s1
                   [Plain.tx 1 50 (AddProvider 2);
                    Plain.tx 1 100 (SubmitPartyAttributes 5 3 4);
                    Plain.tx 1 101 (SubmitPartyAttributes 7 7 7);
                    Plain.tx 2 100 (SubmitPartyAttributes 4 5 2)]) 1)
  = (9, 8, 6).
Proof.
  pose proof (accumulators_sum Plain.env (fun h => h) TwoOpen.s1
                [Plain.tx 1 50 (AddProvider 2);
                 Plain.tx 1 100 (SubmitPartyAttributes 5 3 4);
                 Plain.tx 1 101 (SubmitPartyAttributes 7 7 7);
                 Plain.tx 2 100 (SubmitPartyAttributes 4 5 2)]
                plain_homomorphic) as H.
  destruct H as [_ H].
  - repeat constructor; discriminate.
  - vm_compute in H. destruct H as [_ H].
    vm_compute. apply H; reflexivity.
Defined.

(** ** ABI words *)

Section AbiWords.

Lemma byte_of_small (k : N) :
  k < 256 ->
  Byte.to_N (match Byte.of_N k with Some b => b | None => Byte.x00 end) = k.
Proof.
  intros Hk. destruct (Byte.of_N k) as [b |] eqn:Hb.
  - now apply Byte.to_of_N.
  - apply Byte.of_N_None_iff in Hb. lia.
Qed.

(** Big-endian digits, most significant first: folding the [n] low bytes of
    [w] onto [acc]. *)
Lemma fold_big_endian (n : nat) : forall (w acc : N),
  fold_left (fun a b => a * 256 + Byte.to_N b)
    (map (fun i => match Byte.of_N ((w / 256 ^ (N.of_nat n - 1 - N.of_nat i)) mod 256) with
                   | Some b => b
                   | None => Byte.x00
                   end) (seq 0 n)) acc
  = acc * 256 ^ N.of_nat n + w mod 256 ^ N.of_nat n.
Proof.
  induction n as [| n IH]; intros w acc.
  - cbn. rewrite N.mod_1_r. lia.
  - rewrite seq_S, map_app, fold_left_app. cbn [map fold_left Nat.add].
    rewrite (map_ext_in _
               (fun i => match Byte.of_N (((w / 256) / 256 ^ (N.of_nat n - 1 - N.of_nat i))
                                            mod 256) with
                         | Some b => b
                         | None => Byte.x00
                         end)).
    2: { intros i Hi. apply in_seq in Hi.
         replace (N.of_nat (S n) - 1 - N.of_nat i)
           with (1 + (N.of_nat n - 1 - N.of_nat i)) by lia.
         rewrite N.pow_add_r, N.pow_1_r, N.Div0.div_div. reflexivity. }
    rewrite IH.
    replace (N.of_nat (S n) - 1 - N.of_nat n) with 0 by lia.
    rewrite N.pow_0_r, N.div_1_r.
    rewrite byte_of_small by (apply N.mod_lt; lia).
    replace (N.of_nat (S n)) with (1 + N.of_nat n) by lia.
    rewrite N.pow_add_r, N.pow_1_r.
    rewrite (N.Div0.mod_mul_r w 256 (256 ^ N.of_nat n)). lia.
Qed.

Lemma word_of_bytes_of_word (w : N) :
  w <= MAX_UINT256 -> word_of_bytes (bytes_of_word w) = w.
Proof.
  intros Hw. unfold word_of_bytes, bytes_of_word.
  change 31 with (N.of_nat 32 - 1). rewrite fold_big_endian.
  rewrite N.mod_small; [lia |].
  unfold MAX_UINT256 in Hw. change (N.of_nat 32) with 32.
  change (256 ^ 32) with (2 ^ 256). pose proof (N.pow_nonzero 2 256). lia.
Qed.

Lemma bytes_of_word_length (w : N) : length (bytes_of_word w) = 32%nat.
Proof. unfold bytes_of_word. now rewrite length_map, length_seq. Qed.

Lemma word_at_app (pre x rest : list Byte.byte) (i : nat) :
  length x = 32%nat -> length pre = (32 * i)%nat ->
  word_at i (pre ++ x ++ rest) = word_of_bytes x.
Proof.
  intros Hx Hp. unfold word_at.
  rewrite <- Hp, drop_app_length, <- Hx, take_app_length. reflexivity.
Qed.

Lemma abi_decode4_encode4 (a b c d : N) (rest : list Byte.byte) :
  a <= MAX_UINT256 -> b <= MAX_UINT256 -> c <= MAX_UINT256 -> d <= MAX_UINT256 ->
  abi_decode4 (abi_encode4 a b c d ++ rest) = Ok (a, b, c, d).
Proof.
  intros Ha Hb Hc Hd. unfold abi_decode4, abi_encode4.
  pose proof (bytes_of_word_length a) as La. pose proof (bytes_of_word_length b) as Lb.
  pose proof (bytes_of_word_length c) as Lc. pose proof (bytes_of_word_length d) as Ld.
  replace (length _ <? 128)%nat with false
    by (symmetry; apply Nat.ltb_ge; rewrite !length_app; lia).
  rewrite <- !app_assoc.
  set (A := bytes_of_word a) in *. set (B := bytes_of_word b) in *.
  set (C := bytes_of_word c) in *. set (D := bytes_of_word d) in *.
  assert (H0 : word_at 0 (A ++ B ++ C ++ D ++ rest) = word_of_bytes A)
    by (apply (word_at_app [] A); [assumption | reflexivity]).
  assert (H1 : word_at 1 (A ++ B ++ C ++ D ++ rest) = word_of_bytes B)
    by (apply (word_at_app A B); [assumption | lia]).
  assert (H2 : word_at 2 (A ++ B ++ C ++ D ++ rest) = word_of_bytes C).
  { rewrite (app_assoc A B). apply (word_at_app (A ++ B) C); [assumption |].
    rewrite length_app. lia. }
  assert (H3 : word_at 3 (A ++ B ++ C ++ D ++ rest) = word_of_bytes D).
  { rewrite (app_assoc A B), (app_assoc (A ++ B) C).
    apply (word_at_app ((A ++ B) ++ C) D); [assumption |]. rewrite !length_app. lia. }
  rewrite H0, H1, H2, H3. subst A B C D.
  rewrite !word_of_bytes_of_word by assumption. reflexivity.
Qed.

End AbiWords.

(** ** Requests and their answers *)

Section Answers.

Variable E : External.

(** Past the first four checks, [myCallback] stands or falls with the
    decoding of the cleartexts. *)
Lemma myCallback_checked s c r ct p :
  processed (decryptionContexts_at s r) = false ->
  id (batches_at s (batchId (decryptionContexts_at s r))) <> 0 ->
  _hashCiphertexts E (ciphertexts_of (batches_at s (batchId (decryptionContexts_at s r))))
    = stateHash (decryptionContexts_at s r) ->
  checkSignatures E r ct p = true ->
  myCallback E s c r ct p
  = match abi_decode4 ct with
    | Ok (w0, w1, w2, w3) =>
        Ok (set_decryptionContexts
              (<[r := set_processed true (decryptionContexts_at s r)]>
                 (decryptionContexts s)) s,
            [Event.DecryptionCompleted r (batchId (decryptionContexts_at s r)) w0 w1 w2 w3])
    | Err e => Err e
    end.
Proof.
  intros Hp Hid Hh Hsig. unfold myCallback, revert_if, bind.
  apply N.eqb_neq in Hid. apply N.eqb_eq in Hh. rewrite Hp, Hid, Hh, Hsig. cbn.
  destruct (abi_decode4 ct) as [[[[w0 w1] w2] w3] |]; reflexivity.
Qed.

(** The context and the batch that a successful seed request leaves. *)
Lemma generate_leaves s a t r s1 evs1 :
  batches_wf s ->
  generateDungeonSeed E s a t r = Ok (s1, evs1) ->
  decryptionContexts_at s1 r
    = mkDecryptionContext (currentBatchId s)
        (_hashCiphertexts E (ciphertexts_of (batches_at s1 (currentBatchId s)))) false /\
  id (batches_at s1 (currentBatchId s)) = currentBatchId s /\
  1 <= currentBatchId s.
Proof.
  intros (Hcur & Hb & _) H. apply generateDungeonSeed_ok in H. cbv zeta in H.
  destruct H as [(_ & _ & _ & _ & Ho) ->].
  destruct (Hb _ _ (batches_at_open _ _ Ho)) as [Hid _].
  rewrite batches_at_written. unfold decryptionContexts_at. cbn.
  rewrite lookup_insert_eq. cbn. auto.
Qed.

(** A stored context is touched only by a seed request that is given its
    identifier and by a successful callback for it, which sets [processed]. *)
Lemma context_step s tx r ctx :
  decryptionContexts s !! r = Some ctx ->
  (forall r', tx_call tx = GenerateDungeonSeed r' -> r' <> r) ->
  decryptionContexts (step E s tx) !! r = Some ctx \/
  (decryptionContexts (step E s tx) !! r = Some (set_processed true ctx) /\
   processed ctx = false /\
   exists ct p, tx_call tx = MyCallback r ct p).
Proof.
  intros Hl Hfresh. unfold step.
  destruct (exec E s tx) as [[s' evs] |] eqn:H; [| now left].
  destruct (is_admin (tx_call tx)) eqn:Ha.
  { destruct (admin_ok E _ _ _ _ Ha H) as (_ & _ & _ & -> & _). now left. }
  unfold exec in H. destruct (tx_call tx) eqn:Hcall; try discriminate Ha.
  - apply openBatch_ok in H. destruct H as (_ & _ & _ & -> & _). now left.
  - apply closeBatch_ok in H. destruct H as (_ & _ & _ & -> & _). now left.
  - apply submitPartyAttributes_ok in H. destruct H as [_ ->]. now left.
  - apply generateDungeonSeed_ok in H. destruct H as [_ ->]. left. cbn.
    rewrite lookup_insert_ne; [exact Hl | now apply Hfresh].
  - apply myCallback_ok in H. cbv zeta in H. destruct H as (Hp & _ & _ & _ & _ & -> & _).
    cbn. destruct (N.eq_dec requestId r) as [-> | Hne].
    + right. rewrite lookup_insert_eq. unfold decryptionContexts_at in *. rewrite Hl in *.
      cbn in *. eauto.
    + left. now rewrite lookup_insert_ne.
Qed.

Lemma fresh_not_stored s tx r ctx :
  decryptionContexts s !! r = Some ctx ->
  (forall r', tx_call tx = GenerateDungeonSeed r' -> decryptionContexts s !! r' = None) ->
  forall r', tx_call tx = GenerateDungeonSeed r' -> r' <> r.
Proof. intros Hl Hf r' Hc ->. rewrite (Hf _ Hc) in Hl. discriminate. Qed.

Lemma context_run txs : forall s r ctx,
  decryptionContexts s !! r = Some ctx ->
  oracle_ids_fresh E s txs ->
  exists ctx',
    decryptionContexts (run E s txs) !! r = Some ctx' /\
    batchId ctx' = batchId ctx /\ stateHash ctx' = stateHash ctx /\
    (processed ctx = true -> processed ctx' = true).
Proof.
  induction txs as [| tx txs IH]; intros s r ctx Hl Hf; [cbn; eauto |].
  destruct Hf as [Hf1 Hf2]. change (run E s (tx :: txs)) with (run E (step E s tx) txs).
  destruct (context_step s tx r ctx Hl (fresh_not_stored _ _ _ _ Hl Hf1))
    as [Hs | (Hs & Hp & _)];
    destruct (IH _ _ _ Hs Hf2) as (ctx' & Hl' & Hb & Hh & Hpr); exists ctx'; cbn in *;
    repeat split; auto; congruence.
Qed.

(** Batches below the current id are out of reach of every transaction. *)
Lemma superseded_run txs : forall s k,
  k < currentBatchId s ->
  batches (run E s txs) !! k = batches s !! k /\
  currentBatchId s <= currentBatchId (run E s txs).
Proof.
  induction txs as [| tx txs IH]; intros s k Hk; [cbn; split; [reflexivity | lia] |].
  change (run E s (tx :: txs)) with (run E (step E s tx) txs).
  assert (Hstep : batches (step E s tx) !! k = batches s !! k /\
                  currentBatchId s <= currentBatchId (step E s tx)).
  { unfold step. destruct (exec E s tx) as [[s' evs] |] eqn:H; [| split; [reflexivity | lia]].
    pose proof (exec_currentBatchId_mono E _ _ _ _ H).
    split; [apply (exec_frame_batches E _ _ _ _ k H); lia | assumption]. }
  destruct Hstep as [Hb Hc]. destruct (IH (step E s tx) k ltac:(lia)) as [Hb' Hc'].
  split; [congruence | lia].
Qed.

(** A context that no transaction of the sequence addresses stays as it is. *)
Lemma untouched_context_run txs : forall s r ctx,
  decryptionContexts s !! r = Some ctx ->
  Forall (fun tx => forall r', (tx_call tx = GenerateDungeonSeed r' -> r' <> r) /\
                               (forall ct p, tx_call tx = MyCallback r' ct p -> r' <> r)) txs ->
  decryptionContexts (run E s txs) !! r = Some ctx.
Proof.
  induction txs as [| tx txs IH]; intros s r ctx Hl Hall; [exact Hl |].
  apply Forall_cons in Hall. destruct Hall as [Htx Hall].
  change (run E s (tx :: txs)) with (run E (step E s tx) txs).
  apply IH; [| exact Hall].
  destruct (context_step s tx r ctx Hl (fun r' => proj1 (Htx r')))
    as [Hs | (_ & _ & ct & p & Hc)]; [exact Hs |].
  destruct (proj2 (Htx r) ct p Hc eq_refl).
Qed.

End Answers.

(** X11. The request and its answer. After a successful
    [generateDungeonSeed] in a reachable state, [myCallback] for the
    returned request id succeeds for every caller as soon as the proof is
    accepted and the cleartexts hold at least four words: it marks the
    context as processed, leaves every batch as it was, and its
    [DecryptionCompleted] event carries the batch id and the four words of
    the cleartexts. The words are not compared with anything in storage:
    for cleartexts that are the ABI encoding of any four [uint256] values
    (followed by any further bytes), the event reports exactly these four
    values. *)
Theorem request_then_answer (E : External) (s : State) (a : address) (t r : uint256)
    (s1 : State) (evs1 : list Event.t) :
  reachable E s ->
  generateDungeonSeed E s a t r = Ok (s1, evs1) ->
  forall c w0 w1 w2 w3 rest p,
    w0 <= MAX_UINT256 -> w1 <= MAX_UINT256 -> w2 <= MAX_UINT256 -> w3 <= MAX_UINT256 ->
    checkSignatures E r (abi_encode4 w0 w1 w2 w3 ++ rest) p = true ->
    exists s2,
      myCallback E s1 c r (abi_encode4 w0 w1 w2 w3 ++ rest) p
        = Ok (s2, [Event.DecryptionCompleted r (currentBatchId s) w0 w1 w2 w3]) /\
      processed (decryptionContexts_at s2 r) = true /\
      batches s2 = batches s1 /\
      currentBatchId s2 = currentBatchId s.
Proof.
  intros Hr Hg c w0 w1 w2 w3 rest p H0 H1 H2 H3 Hsig.
  destruct (generate_leaves E _ _ _ _ _ _ (reachable_wf E s Hr) Hg) as (Hctx & Hid & Hcur).
  assert (Hc1 : currentBatchId s1 = currentBatchId s).
  { apply generateDungeonSeed_ok in Hg. destruct Hg as [_ ->]. reflexivity. }
  assert (Hp : processed (decryptionContexts_at s1 r) = false) by now rewrite Hctx.
  assert (Hb : batchId (decryptionContexts_at s1 r) = currentBatchId s) by now rewrite Hctx.
  assert (Hid' : id (batches_at s1 (batchId (decryptionContexts_at s1 r))) <> 0)
    by (rewrite Hb, Hid; lia).
  assert (Hh : _hashCiphertexts E
                 (ciphertexts_of (batches_at s1 (batchId (decryptionContexts_at s1 r))))
               = stateHash (decryptionContexts_at s1 r))
    by (rewrite Hb; now rewrite Hctx).
  eexists. split.
  - rewrite (myCallback_checked E s1 c r _ p Hp Hid' Hh Hsig).
    rewrite abi_decode4_encode4 by assumption. rewrite Hb. reflexivity.
  - unfold decryptionContexts_at at 1. cbn. rewrite lookup_insert_eq. cbn. auto.
Qed.

Lemma request_then_answer_witness :
  exists s2,
    myCallback Plain.env Party.s5 55 7 (abi_encode4 9 8 6 78 ++ []) Plain.proof1
      = Ok (s2, [Event.DecryptionCompleted 7 1 9 8 6 78]) /\
    processed (decryptionContexts_at s2 7) = true /\
    batches s2 = batches Party.s5 /\
    currentBatchId s2 = 1.
Proof.
  apply (request_then_answer Plain.env Party.s4 1 200 7 Party.s5
           [Event.DungeonSeedGenerated 1; Event.DecryptionRequested 7 1]).
  - apply reachable_run, reachable_init.
  - vm_compute. reflexivity.
  - vm_compute. discriminate.
  - vm_compute. discriminate.
  - vm_compute. discriminate.
  - vm_compute. discriminate.
  - reflexivity.
Defined.

(** X12. The last two checks of [myCallback]. For a context that is not
    processed, whose batch exists and whose stored hash matches the current
    handles: a proof that [FHE.checkSignatures] rejects makes the call
    revert, whatever the cleartexts are (the signature check comes before
    the decoding), and with an accepted proof cleartexts shorter than 128
    bytes make it revert in [abi.decode]. A reverted answer is not final:
    the context stays unprocessed, and the same request is accepted as
    soon as an answer with an accepted proof and four words arrives. *)
Theorem rejected_answer_is_not_final (E : External) (s : State) (r : uint256) :
  processed (decryptionContexts_at s r) = false ->
  id (batches_at s (batchId (decryptionContexts_at s r))) <> 0 ->
  _hashCiphertexts E (ciphertexts_of (batches_at s (batchId (decryptionContexts_at s r))))
    = stateHash (decryptionContexts_at s r) ->
  (forall c ct p,
     checkSignatures E r ct p = false ->
     myCallback E s c r ct p = Err InvalidSignatures) /\
  (forall c ct p,
     checkSignatures E r ct p = true -> (length ct < 128)%nat ->
     myCallback E s c r ct p = Err DecodeError) /\
  (forall c t ct p e,
     myCallback E s c r ct p = Err e ->
     processed (decryptionContexts_at (step E s (mkTx c t (MyCallback r ct p))) r) = false /\
     forall c' ct' p',
       checkSignatures E r ct' p' = true -> (128 <= length ct')%nat ->
       exists s' evs,
         myCallback E (step E s (mkTx c t (MyCallback r ct p))) c' r ct' p' = Ok (s', evs)).
Proof.
  intros Hp Hid Hh. split; [| split].
  - intros c ct p Hsig. unfold myCallback, revert_if, bind.
    apply N.eqb_neq in Hid. apply N.eqb_eq in Hh. now rewrite Hp, Hid, Hh, Hsig.
  - intros c ct p Hsig Hlen. rewrite myCallback_checked by assumption.
    unfold abi_decode4. apply Nat.ltb_lt in Hlen. now rewrite Hlen.
  - intros c t ct p e He.
    assert (Hs : step E s (mkTx c t (MyCallback r ct p)) = s)
      by (unfold step, exec; cbn; now rewrite He).
    rewrite Hs. split; [exact Hp |].
    intros c' ct' p' Hsig Hlen. eexists _, _. apply myCallback_ok. cbv zeta.
    repeat split; eauto.
Qed.

Lemma rejected_answer_is_not_final_witness :
  myCallback Plain.env Party.s5 99 7 Reveal.cleartexts [] = Err InvalidSignatures /\
  myCallback Plain.env Party.s5 99 7 [] Plain.proof1 = Err DecodeError.
Proof.
  destruct (rejected_answer_is_not_final Plain.env Party.s5 7) as (H1 & H2 & _).
  - vm_compute. reflexivity.
  - vm_compute. discriminate.
  - vm_compute. reflexivity.
  - split; [apply H1; reflexivity | apply H2; [reflexivity | cbn; lia]].
Defined.

(** X13. The snapshot of a request is immutable. Along every sequence of
    transactions in which the library gives each new request an unused
    identifier, a stored context stays stored, with the batch id and the
    state hash it was created with; its [processed] flag can only go from
    false to true. *)
Theorem context_snapshot_immutable (E : External) (s : State) (r : uint256)
    (ctx : DecryptionContext) (txs : list Tx) :
  decryptionContexts s !! r = Some ctx ->
  oracle_ids_fresh E s txs ->
  exists ctx',
    decryptionContexts (run E s txs) !! r = Some ctx' /\
    batchId ctx' = batchId ctx /\ stateHash ctx' = stateHash ctx /\
    (processed ctx = true -> processed ctx' = true).
Proof. intros Hl Hf. exact (context_run E txs s r ctx Hl Hf). Qed.

Lemma context_snapshot_immutable_witness :
  exists ctx',
    decryptionContexts Reveal.s9 !! 7 = Some ctx' /\
    batchId ctx' = 1 /\ stateHash ctx' = Plain.hash [9; 8; 6; 78] 1000 /\
    (false = true -> processed ctx' = true).
Proof.
  apply (context_snapshot_immutable Plain.env Party.s5 7
           (mkDecryptionContext 1 (Plain.hash [9; 8; 6; 78] 1000) false) Reveal.txs).
  - vm_compute. reflexivity.
  - cbn [oracle_ids_fresh Reveal.txs]. repeat split; intros r' Hr'; discriminate Hr'.
Defined.

(** X14. Superseded batches are out of reach. Once the current id has moved
    past a batch, no transaction sequence changes its record any more, and
    the current id never comes back to it. A request that is pending on
    such a batch therefore cannot go stale: if its context is unprocessed
    and its hash matches now, then after any transactions that neither
    answer this request nor reuse its identifier, an answer with an
    accepted proof and four words is accepted. *)
Theorem superseded_batch_out_of_reach (E : External) (s : State) (txs : list Tx) :
  (forall k, k < currentBatchId s ->
     batches (run E s txs) !! k = batches s !! k /\
     k < currentBatchId (run E s txs)) /\
  (forall r ctx,
     decryptionContexts s !! r = Some ctx ->
     processed ctx = false ->
     batchId ctx < currentBatchId s ->
     id (batches_at s (batchId ctx)) <> 0 ->
     _hashCiphertexts E (ciphertexts_of (batches_at s (batchId ctx))) = stateHash ctx ->
     Forall (fun tx => forall r', (tx_call tx = GenerateDungeonSeed r' -> r' <> r) /\
                                  (forall ct p, tx_call tx = MyCallback r' ct p -> r' <> r))
            txs ->
     forall c ct p,
       checkSignatures E r ct p = true -> (128 <= length ct)%nat ->
       exists s' evs, myCallback E (run E s txs) c r ct p = Ok (s', evs)).
Proof.
  split.
  - intros k Hk. destruct (superseded_run E txs s k Hk). split; [assumption | lia].
  - intros r ctx Hl Hp Hk Hid Hh Hall c ct p Hsig Hlen.
    pose proof (untouched_context_run E txs s r ctx Hl Hall) as Hl'.
    destruct (superseded_run E txs s _ Hk) as [Hb _].
    assert (Hat : decryptionContexts_at (run E s txs) r = ctx)
      by (unfold decryptionContexts_at; now rewrite Hl').
    assert (Hbat : batches_at (run E s txs) (batchId ctx) = batches_at s (batchId ctx))
      by (unfold batches_at; now rewrite Hb).
    eexists _, _. apply myCallback_ok. cbv zeta. rewrite Hat, Hbat.
    repeat split; eauto.
Qed.

Lemma superseded_batch_out_of_reach_witness :
  succeed Plain.env (fst (constructor 1)) (Superseded.txs ++ Superseded.later) = true /\
  currentBatchId Superseded.s11 = 2 /\
  exists s' evs,
    myCallback Plain.env (run Plain.env Superseded.s11 Superseded.later) 99 7
      (abi_encode4 5 3 4 19) Plain.proof1 = Ok (s', evs).
Proof.
  split; [vm_compute; reflexivity |]. split; [vm_compute; reflexivity |].
  destruct (superseded_batch_out_of_reach Plain.env Superseded.s11 Superseded.later)
    as [_ H].
  apply (H 7 (mkDecryptionContext 1 (Plain.hash [5; 3; 4; 19] 1000) false)).
  - vm_compute. reflexivity.
  - reflexivity.
  - vm_compute. reflexivity.
  - vm_compute. discriminate.
  - vm_compute. reflexivity.
  - repeat constructor; intros; discriminate.
  - reflexivity.
  - vm_compute. repeat constructor.
Defined.


(** * Properties of the front end *)

Ltac div_lia := zify; Z.to_euclidean_division_equations; lia.

Section Base64.

Lemma all_below_spec (f : N -> bool) (fuel : nat) : forall k,
  all_below fuel k f = true ->
  forall j, k <= j < k + N.of_nat fuel -> f j = true.
Proof.
  induction fuel as [| fuel IH]; intros k H j Hj; [lia |].
  cbn [all_below] in H. destruct (f k) eqn:Hk; [| discriminate].
  destruct (N.eq_dec j k) as [-> | Hne]; [exact Hk |].
  apply (IH (k + 1) H). lia.
Qed.

Lemma base64_value_char (v : N) : v < 64 -> JS.base64_value (JS.base64_char v) = Some v.
Proof.
  intros Hv.
  assert (H : all_below 64 0
                (fun v => match JS.base64_value (JS.base64_char v) with
                          | Some w => w =? v
                          | None => false
                          end) = true) by (vm_compute; reflexivity).
  pose proof (all_below_spec _ _ _ H v ltac:(lia)) as Hc. cbv beta in Hc.
  destruct (JS.base64_value (JS.base64_char v)) as [w |]; [| discriminate].
  apply N.eqb_eq in Hc. now subst.
Qed.

Lemma base64_char_plain (v : N) :
  v < 64 ->
  JS.base64_char v <> "="%char /\ JS.is_ascii_whitespace (JS.base64_char v) = false.
Proof.
  intros Hv.
  assert (H : all_below 64 0
                (fun v => negb (Ascii.eqb (JS.base64_char v) "=")
                          && negb (JS.is_ascii_whitespace (JS.base64_char v))) = true)
    by (vm_compute; reflexivity).
  pose proof (all_below_spec _ _ _ H v ltac:(lia)) as Hc. cbv beta in Hc.
  apply andb_true_iff in Hc. destruct Hc as [H1 H2].
  apply negb_true_iff in H1, H2. apply Ascii.eqb_neq in H1. auto.
Qed.

Lemma list_ind3 {A : Type} (P : list A -> Prop) :
  P [] -> (forall a, P [a]) -> (forall a b, P [a; b]) ->
  (forall a b c l, P l -> P (a :: b :: c :: l)) ->
  forall l, P l.
Proof.
  intros H0 H1 H2 H3.
  assert (H : forall l, P l /\ (forall a, P (a :: l)) /\ (forall a b, P (a :: b :: l))).
  { induction l as [| x l (IH0 & IH1 & IH2)]; [auto |].
    split; [apply IH1 |]. split; [intros a; apply IH2 |]. intros a b. now apply H3. }
  intros l. apply H.
Qed.

Lemma encode_groups_split (bs : list N) :
  JS.encode_groups bs = map JS.base64_char (to_sextets bs) ++ padding bs.
Proof.
  induction bs as [| a | a b | a b c l IH] using list_ind3; try reflexivity.
  cbn [JS.encode_groups to_sextets padding map app]. now rewrite IH.
Qed.

Lemma to_sextets_bound (bs : list N) :
  Forall (fun b => b < 256) bs -> Forall (fun v => v < 64) (to_sextets bs).
Proof.
  induction bs as [| a | a b | a b c l IH] using list_ind3; intros H.
  - constructor.
  - inversion H; subst. cbn. repeat constructor; div_lia.
  - inversion H as [| ? ? Ha H']; subst. inversion H'; subst.
    cbn. repeat constructor; div_lia.
  - inversion H as [| ? ? Ha H']; subst. inversion H' as [| ? ? Hb H'']; subst.
    inversion H'' as [| ? ? Hc Hl]; subst.
    cbn [to_sextets]. repeat constructor; try div_lia. now apply IH.
Qed.

Lemma decode_to_sextets (bs : list N) :
  Forall (fun b => b < 256) bs -> JS.decode_groups (to_sextets bs) = bs.
Proof.
  induction bs as [| a | a b | a b c l IH] using list_ind3; intros H.
  - reflexivity.
  - inversion H; subst. cbn. f_equal. div_lia.
  - inversion H as [| ? ? Ha H']; subst. inversion H'; subst.
    cbn. f_equal; [div_lia |]. f_equal. div_lia.
  - inversion H as [| ? ? Ha H']; subst. inversion H' as [| ? ? Hb H'']; subst.
    inversion H'' as [| ? ? Hc Hl]; subst.
    cbn [to_sextets JS.decode_groups]. rewrite (IH Hl).
    f_equal; [div_lia |]. f_equal; [div_lia |]. f_equal. div_lia.
Qed.

Lemma sextets_of_chars (vs : list N) :
  Forall (fun v => v < 64) vs -> JS.sextets (map JS.base64_char vs) = Some vs.
Proof.
  induction 1 as [| v vs Hv _ IH]; [reflexivity |].
  cbn [map JS.sextets]. now rewrite base64_value_char, IH.
Qed.

Lemma filter_keeps_all {A : Type} (f : A -> bool) (l : list A) :
  Forall (fun x => f x = true) l -> List.filter f l = l.
Proof.
  induction 1 as [| x l Hx _ IH]; [reflexivity |]. cbn [List.filter]. now rewrite Hx, IH.
Qed.

Lemma padding_plain (bs : list N) :
  Forall (fun c => negb (JS.is_ascii_whitespace c) = true) (padding bs).
Proof.
  induction bs as [| a | a b | a b c l IH] using list_ind3;
    cbn [padding]; repeat constructor; assumption.
Qed.

Lemma encoding_without_whitespace (bs : list N) :
  Forall (fun b => b < 256) bs ->
  List.filter (fun c => negb (JS.is_ascii_whitespace c)) (JS.encode_groups bs)
  = JS.encode_groups bs.
Proof.
  intros H. apply filter_keeps_all. rewrite encode_groups_split.
  apply Forall_app. split; [| apply padding_plain].
  apply List.Forall_map. eapply List.Forall_impl; [| exact (to_sextets_bound _ H)].
  intros v Hv. cbv beta. now rewrite (proj2 (base64_char_plain v Hv)).
Qed.

(** Lengths: the encoding is made of groups of four, and its sextets never
    leave a single one over. *)
Lemma encode_groups_length (bs : list N) :
  exists k, length (JS.encode_groups bs) = (4 * k)%nat.
Proof.
  induction bs as [| a | a b | a b c l [k IH]] using list_ind3.
  - now exists 0%nat.
  - now exists 1%nat.
  - now exists 1%nat.
  - exists (S k). cbn [JS.encode_groups length]. rewrite IH. lia.
Qed.

Lemma to_sextets_length (bs : list N) :
  exists k, length (to_sextets bs) = (4 * k)%nat \/
            length (to_sextets bs) = (4 * k + 2)%nat \/
            length (to_sextets bs) = (4 * k + 3)%nat.
Proof.
  induction bs as [| a | a b | a b c l [k IH]] using list_ind3.
  - exists 0%nat. now left.
  - exists 0%nat. right. now left.
  - exists 0%nat. right. now right.
  - exists (S k). cbn [to_sextets length]. lia.
Qed.

Lemma padding_cases (bs : list N) :
  (padding bs = [] /\ (bs = [] \/ to_sextets bs <> [])) \/
  (padding bs = ["="%char] /\ to_sextets bs <> []) \/
  (padding bs = ["="%char; "="%char] /\ to_sextets bs <> []).
Proof.
  induction bs as [| a | a b | a b c l IH] using list_ind3.
  - left. auto.
  - right. right. split; [reflexivity | discriminate].
  - right. left. split; [reflexivity | discriminate].
  - cbn [padding to_sextets].
    destruct IH as [[-> _] | [[-> _] | [-> _]]];
      [left | right; left | right; right]; split; try reflexivity;
      try right; discriminate.
Qed.

(** The last character before the padding is not a [=]. *)
Lemma body_ends_plain (vs : list N) :
  Forall (fun v => v < 64) vs -> vs <> [] ->
  exists c r, rev (map JS.base64_char vs) = c :: r /\ Ascii.eqb c "=" = false.
Proof.
  intros Hvs Hne. rewrite <- map_rev.
  destruct (rev vs) as [| v r] eqn:Hr.
  - apply (f_equal (@rev N)) in Hr. rewrite rev_involutive in Hr. contradiction.
  - exists (JS.base64_char v), (map JS.base64_char r). split; [reflexivity |].
    apply Ascii.eqb_neq, base64_char_plain.
    assert (Hin : In v (rev vs)) by (rewrite Hr; now left).
    apply in_rev in Hin. rewrite List.Forall_forall in Hvs. now apply Hvs.
Qed.

Lemma strip_padding_encoding (bs : list N) :
  Forall (fun b => b < 256) bs ->
  JS.strip_padding (JS.encode_groups bs) = map JS.base64_char (to_sextets bs).
Proof.
  intros H. unfold JS.strip_padding.
  destruct (encode_groups_length bs) as [k ->].
  replace (4 * k mod 4 =? 0)%nat with true
    by (symmetry; apply Nat.eqb_eq; rewrite Nat.mul_comm; apply Nat.Div0.mod_mul).
  rewrite encode_groups_split.
  pose proof (to_sextets_bound _ H) as Hs.
  destruct (padding_cases bs) as [[-> Hc] | [[-> Hne] | [-> Hne]]].
  - rewrite app_nil_r. destruct Hc as [-> | Hne]; [reflexivity |].
    destruct (body_ends_plain _ Hs Hne) as (c & r & Hr & Hc). rewrite Hr.
    destruct r; now rewrite Hc.
  - rewrite rev_app_distr. cbn [rev app].
    destruct (body_ends_plain _ Hs Hne) as (c & r & Hr & Hc). rewrite Hr.
    cbv beta iota. rewrite Ascii.eqb_refl, Hc.
    change (rev r ++ [c]) with (rev (c :: r)). rewrite <- Hr. apply rev_involutive.
  - rewrite rev_app_distr. cbn [rev app]. cbv beta iota. rewrite !Ascii.eqb_refl.
    apply rev_involutive.
Qed.

Lemma bytes_of_string_bound (s : string) :
  Forall (fun b => b < 256) (map N_of_ascii (list_ascii_of_string s)).
Proof.
  apply List.Forall_forall. intros b Hb. apply in_map_iff in Hb.
  destruct Hb as (c & <- & _). apply N_ascii_bounded.
Qed.

Lemma map_ascii_of_N_of_ascii (l : list ascii) : map ascii_of_N (map N_of_ascii l) = l.
Proof.
  induction l as [| c l IH]; [reflexivity |]. cbn. now rewrite ascii_N_embedding, IH.
Qed.

Lemma mod4_offset (k r : nat) : (r < 4)%nat -> ((4 * k + r) mod 4)%nat = r.
Proof.
  intros H. rewrite Nat.add_comm, Nat.mul_comm, Nat.Div0.mod_add.
  now apply Nat.mod_small.
Qed.

(** [atob] undoes [btoa]. *)
Lemma atob_btoa (s : string) : JS.atob (JS.btoa s) = Some s.
Proof.
  unfold JS.atob, JS.btoa. rewrite list_ascii_of_string_of_list_ascii.
  pose proof (bytes_of_string_bound s) as Hb.
  rewrite (encoding_without_whitespace _ Hb), (strip_padding_encoding _ Hb).
  rewrite length_map.
  destruct (to_sextets_length (map N_of_ascii (list_ascii_of_string s)))
    as [k [Hl | [Hl | Hl]]]; rewrite Hl.
  1: replace (4 * k)%nat with (4 * k + 0)%nat by lia.
  all: rewrite mod4_offset by lia; cbn [Nat.eqb].
  all: rewrite (sextets_of_chars _ (to_sextets_bound _ Hb)), (decode_to_sextets _ Hb),
         map_ascii_of_N_of_ascii, string_of_list_ascii_of_string; reflexivity.
Qed.

End Base64.

(** ** Exhaustive checks *)

Ltac int_lia := change (2 ^ 63) with 9223372036854775808; lia.

Section Checks.

Lemma all_below_int_spec (f : int -> bool) (fuel : nat) : forall k0,
  all_below_int fuel k0 f = true ->
  forall k, (Uint63.to_Z k0 <= Uint63.to_Z k < Uint63.to_Z k0 + Z.of_nat fuel)%Z ->
  f k = true.
Proof.
  induction fuel as [| fuel IH]; intros k0 H k Hk; [lia |].
  cbn [all_below_int] in H. destruct (f k0) eqn:Hk0; [| discriminate].
  destruct (Z.eq_dec (Uint63.to_Z k) (Uint63.to_Z k0)) as [He | Hne].
  - apply Uint63.to_Z_inj in He. now subst.
  - apply (IH _ H). rewrite Uint63.succ_spec.
    pose proof (Uint63.to_Z_bounded k). pose proof (Uint63.to_Z_bounded k0).
    rewrite Z.mod_small; lia.
Qed.

Lemma to_Z_int_of_N (n : N) : n < 2 ^ 63 -> Uint63.to_Z (JS.int_of_N n) = Z.of_N n.
Proof.
  intros H. unfold JS.int_of_N. rewrite Uint63.of_Z_spec. apply Z.mod_small.
  change Uint63.wB with (Z.of_N (2 ^ 63)). lia.
Qed.

Lemma below_spec (n : N) (f : int -> bool) :
  n < 2 ^ 63 -> below n f = true -> forall k, k < n -> f (JS.int_of_N k) = true.
Proof.
  unfold below. intros Hn H k Hk. apply (all_below_int_spec _ _ _ H).
  rewrite to_Z_int_of_N by lia. change (Uint63.to_Z 0) with 0%Z. lia.
Qed.

Lemma int_of_N_of_int (i : int) : JS.int_of_N (JS.N_of_int i) = i.
Proof.
  unfold JS.int_of_N, JS.N_of_int. pose proof (Uint63.to_Z_bounded i).
  rewrite Z2N.id by lia. apply Uint63.of_to_Z.
Qed.

Lemma N_of_int_of_N (n : N) : n < 2 ^ 63 -> JS.N_of_int (JS.int_of_N n) = n.
Proof.
  intros H. unfold JS.N_of_int. rewrite to_Z_int_of_N by assumption. apply N2Z.id.
Qed.

Lemma N_of_int_bound (i : int) : JS.N_of_int i < 2 ^ 63.
Proof.
  unfold JS.N_of_int. pose proof (Uint63.to_Z_bounded i) as H.
  change Uint63.wB with (Z.of_N (2 ^ 63)) in H. lia.
Qed.

Lemma int_of_N_add (n m : N) :
  n + m < 2 ^ 63 -> (JS.int_of_N n + JS.int_of_N m)%uint63 = JS.int_of_N (n + m).
Proof.
  intros H. apply Uint63.to_Z_inj.
  rewrite Uint63.add_spec, !to_Z_int_of_N by lia. rewrite Z.mod_small; [lia |].
  change Uint63.wB with (Z.of_N (2 ^ 63)). lia.
Qed.

Lemma int_of_N_mul (n m : N) :
  n < 2 ^ 63 -> m < 2 ^ 63 -> n * m < 2 ^ 63 ->
  (JS.int_of_N n * JS.int_of_N m)%uint63 = JS.int_of_N (n * m).
Proof.
  intros Hn Hm H. apply Uint63.to_Z_inj.
  rewrite Uint63.mul_spec, !to_Z_int_of_N by lia. rewrite Z.mod_small; [lia |].
  change Uint63.wB with (Z.of_N (2 ^ 63)). lia.
Qed.

Lemma int_of_N_div (n m : N) :
  n < 2 ^ 63 -> m < 2 ^ 63 ->
  (JS.int_of_N n / JS.int_of_N m)%uint63 = JS.int_of_N (n / m).
Proof.
  intros Hn Hm. apply Uint63.to_Z_inj.
  assert (n / m <= n) by (zify; Z.to_euclidean_division_equations; nia).
  rewrite Uint63.div_spec, !to_Z_int_of_N by lia. now rewrite N2Z.inj_div.
Qed.

Lemma int_of_N_mod (n m : N) :
  n < 2 ^ 63 -> 0 < m < 2 ^ 63 ->
  (JS.int_of_N n mod JS.int_of_N m)%uint63 = JS.int_of_N (n mod m).
Proof.
  intros Hn Hm. apply Uint63.to_Z_inj.
  assert (n mod m < m) by (apply N.mod_lt; lia).
  rewrite Uint63.mod_spec, !to_Z_int_of_N by lia. now rewrite N2Z.inj_mod.
Qed.

(** Every integer below one million is a number, exactly. *)
Lemma safe_integer_number (n : N) :
  n < 1000000 -> JS.safe_integer (JS.number_of_N n) = Some (JS.int_of_N n).
Proof.
  intros Hn.
  assert (H : below 1000000 is_safe_integer = true) by (vm_compute; reflexivity).
  pose proof (below_spec 1000000 _ ltac:(reflexivity) H n Hn) as Hc. clear H. unfold is_safe_integer in Hc.
  unfold JS.number_of_N.
  destruct (JS.safe_integer (PrimFloat.of_uint63 (JS.int_of_N n))) as [m |];
    [| discriminate].
  apply Uint63.eqb_correct in Hc. now subst.
Qed.

(** The packing of three attributes below 100 is exact. *)
Lemma combineAttributes_exact (s a i : N) :
  s < 100 -> a < 100 -> i < 100 ->
  combineAttributes (JS.number_of_N s) (JS.number_of_N a) (JS.number_of_N i)
  = JS.number_of_N (s * 10000 + a * 100 + i).
Proof.
  intros Hs Ha Hi.
  assert (H : below 100 (fun s => below 100 (fun a => below 100 (combine_exact s a)))
              = true) by (vm_compute; reflexivity).
  pose proof (below_spec 100 _ ltac:(reflexivity) H s Hs) as H1. cbv beta in H1.
  pose proof (below_spec 100 _ ltac:(reflexivity) H1 a Ha) as H2. cbv beta in H2.
  pose proof (below_spec 100 _ ltac:(reflexivity) H2 i Hi) as H3. clear H H1 H2.
  unfold combine_exact in H3. apply FloatAxioms.Leibniz.eqb_spec in H3.
  unfold JS.number_of_N at 1 2 3. rewrite H3. unfold JS.number_of_N. f_equal.
  change 10000%uint63 with (JS.int_of_N 10000). change 100%uint63 with (JS.int_of_N 100).
  rewrite !int_of_N_mul, !int_of_N_add by int_lia. reflexivity.
Qed.

(** A number below one million is split into its three pairs of decimal
    digits. *)
Lemma splitAttributes_digits (c : N) :
  c < 1000000 ->
  splitAttributes (JS.number_of_N c)
  = Some (JS.number_of_N (c / 10000), JS.number_of_N (c mod 10000 / 100),
          JS.number_of_N (c mod 100)).
Proof.
  intros Hc.
  assert (H : below 1000000 split_digits = true) by (vm_compute; reflexivity).
  pose proof (below_spec 1000000 _ ltac:(reflexivity) H c Hc) as H1. clear H. unfold split_digits in H1.
  unfold JS.number_of_N at 1.
  destruct (splitAttributes (PrimFloat.of_uint63 (JS.int_of_N c))) as [[[x y] z] |];
    [| discriminate].
  apply andb_true_iff in H1. destruct H1 as [H1 Hz].
  apply andb_true_iff in H1. destruct H1 as [Hx Hy].
  apply FloatAxioms.Leibniz.eqb_spec in Hx, Hy, Hz. subst x y z.
  assert (c mod 10000 < 10000) by (apply N.mod_lt; lia).
  unfold JS.number_of_N.
  change 10000%uint63 with (JS.int_of_N 10000). change 100%uint63 with (JS.int_of_N 100).
  assert (c mod 100 < 100) by (apply N.mod_lt; lia).
  assert (c / 10000 <= c /\ c mod 10000 / 100 <= c mod 10000) as [? ?] by (split; div_lia).
  rewrite !int_of_N_mod, !int_of_N_div by int_lia. reflexivity.
Qed.

End Checks.

(** ** Numbers as strings *)

Section Strings.

Lemma decimal_first (n : N) :
  exists c s, JS.decimal n = String c s /\ Ascii.eqb "F" c = false.
Proof.
  unfold JS.decimal. destruct (N.to_uint n) as [| d | d | d | d | d | d | d | d | d | d] eqn:E.
  1: { exfalso. destruct n as [| p]; [discriminate |].
       exact (DecimalPos.Unsigned.to_uint_nonnil p E). }
  all: eexists _, _; split; reflexivity.
Qed.

Lemma parseFloat_decimal (n : N) :
  n < 2 ^ 63 -> JS.parseFloat (JS.decimal n) = Some (JS.number_of_N n).
Proof.
  intros Hn. destruct (decimal_first n) as (c & s & E & _).
  unfold JS.parseFloat. rewrite E, <- E. unfold JS.decimal.
  rewrite NilEmpty.usu, DecimalN.Unsigned.of_to.
  now rewrite (proj2 (N.ltb_lt _ _) Hn).
Qed.

Lemma FHEDecryptNumber_decimal (n : N) :
  n < 2 ^ 63 -> FHEDecryptNumber (JS.decimal n) = Some (JS.number_of_N n).
Proof.
  intros Hn. destruct (decimal_first n) as (c & s & E & Hc).
  unfold FHEDecryptNumber. rewrite E. cbn [JS.startsWith]. rewrite Hc. cbn [andb].
  rewrite <- E. now apply parseFloat_decimal.
Qed.

Lemma FHEDecryptNumber_encoding (n : N) :
  n < 2 ^ 63 ->
  FHEDecryptNumber ("FHE-" ++ JS.btoa (JS.decimal n)) = Some (JS.number_of_N n).
Proof.
  intros Hn. unfold FHEDecryptNumber.
  change (JS.startsWith "FHE-" ("FHE-" ++ JS.btoa (JS.decimal n))) with true.
  change (JS.substring_from 4 ("FHE-" ++ JS.btoa (JS.decimal n)))
    with (JS.btoa (JS.decimal n)).
  rewrite atob_btoa. now apply parseFloat_decimal.
Qed.

Lemma FHEEncryptNumber_safe (x : float) (n : int) :
  JS.safe_integer x = Some n ->
  FHEEncryptNumber x = Some ("FHE-" ++ JS.btoa (JS.decimal (JS.N_of_int n)))%string.
Proof. intros H. unfold FHEEncryptNumber, JS.toString. now rewrite H. Qed.

Lemma number_of_int (n : int) : JS.number_of_N (JS.N_of_int n) = PrimFloat.of_uint63 n.
Proof. unfold JS.number_of_N. now rewrite int_of_N_of_int. Qed.

End Strings.

(** X15. [FHEDecryptNumber] undoes [FHEEncryptNumber]: a number that is the
    non-negative integer [n] is encoded as a string that decodes to the
    number [n], and so do its bare decimal digits, which [FHEDecryptNumber]
    reads on its second branch. No key takes part in either direction. *)
Theorem FHEDecryptNumber_FHEEncryptNumber (x : float) (n : int) :
  JS.safe_integer x = Some n ->
  exists digits encrypted,
    JS.toString x = Some digits /\
    FHEEncryptNumber x = Some encrypted /\
    encrypted = ("FHE-" ++ JS.btoa digits)%string /\
    FHEDecryptNumber encrypted = Some (PrimFloat.of_uint63 n) /\
    FHEDecryptNumber digits = Some (PrimFloat.of_uint63 n).
Proof.
  intros H. exists (JS.decimal (JS.N_of_int n)). eexists.
  split; [unfold JS.toString; now rewrite H |].
  split; [exact (FHEEncryptNumber_safe x n H) |]. split; [reflexivity |].
  rewrite <- number_of_int.
  split; [apply FHEDecryptNumber_encoding | apply FHEDecryptNumber_decimal];
    apply N_of_int_bound.
Qed.

Lemma FHEDecryptNumber_FHEEncryptNumber_witness :
  FHEEncryptNumber 50304%float = Some "FHE-NTAzMDQ="%string /\
  FHEDecryptNumber "FHE-NTAzMDQ=" = Some 50304%float /\
  FHEDecryptNumber "50304" = Some 50304%float.
Proof.
  assert (Hs : JS.safe_integer 50304%float = Some 50304%uint63)
    by (vm_compute; reflexivity).
  destruct (FHEDecryptNumber_FHEEncryptNumber _ _ Hs)
    as (digits & encrypted & Hd & He & -> & H1 & H2).
  vm_compute in Hd. injection Hd as <-.
  split; [exact He | split; [exact H1 | exact H2]].
Defined.

(** ** The attributes *)

(** X16. The three attributes, each below 100, survive the whole way from
    the creation form to the decrypted view: [createDungeon] packs and
    encodes them, [decryptWithSignature] decodes the string and reads back
    the same three numbers. *)
Theorem attributes_round_trip (s a i : N) :
  s < 100 -> a < 100 -> i < 100 ->
  exists encrypted combinedValue,
    FHEEncryptNumber
      (combineAttributes (JS.number_of_N s) (JS.number_of_N a) (JS.number_of_N i))
    = Some encrypted /\
    FHEDecryptNumber encrypted = Some combinedValue /\
    splitAttributes combinedValue
    = Some (JS.number_of_N s, JS.number_of_N a, JS.number_of_N i).
Proof.
  intros Hs Ha Hi. set (c := s * 10000 + a * 100 + i).
  assert (Hc : c < 1000000) by (unfold c; lia).
  rewrite combineAttributes_exact by assumption. fold c.
  eexists _, _. split; [apply FHEEncryptNumber_safe, safe_integer_number, Hc |].
  rewrite N_of_int_of_N by int_lia.
  split; [apply FHEDecryptNumber_encoding; int_lia |].
  rewrite splitAttributes_digits by assumption.
  replace (c / 10000) with s by (unfold c; div_lia).
  replace (c mod 10000 / 100) with a by (unfold c; div_lia).
  replace (c mod 100) with i by (unfold c; div_lia).
  reflexivity.
Qed.

Lemma attributes_round_trip_witness :
  exists encrypted combinedValue,
    FHEEncryptNumber (combineAttributes 5%float 3%float 4%float) = Some encrypted /\
    FHEDecryptNumber encrypted = Some combinedValue /\
    splitAttributes combinedValue = Some (5%float, 3%float, 4%float).
Proof.
  exact (attributes_round_trip 5 3 4 ltac:(reflexivity) ltac:(reflexivity)
           ltac:(reflexivity)).
Defined.

(** ** The dungeon *)

Section Dungeons.

Lemma rem_1000 (x : float) (n : int) :
  JS.safe_integer x = Some n ->
  JS.rem x 1000%float = Some (JS.number_of_N (JS.N_of_int n mod 1000)).
Proof.
  intros H. unfold JS.rem. rewrite H.
  change (JS.safe_integer 1000%float) with (Some 1000%uint63).
  change (Uint63.eqb 1000 0) with false. cbv iota. unfold JS.number_of_N. do 2 f_equal.
  rewrite <- (int_of_N_of_int n) at 1. change 1000%uint63 with (JS.int_of_N 1000).
  pose proof (N_of_int_bound n). apply int_of_N_mod; [assumption | int_lia].
Qed.

(** [rng] sees the seed through its residue modulo 1000 only. *)
Lemma rng_residue (x : float) (n : int) (max min : float) :
  JS.safe_integer x = Some n ->
  rng x max min = rng (JS.number_of_N (JS.N_of_int n mod 1000)) max min.
Proof.
  intros H. set (r := JS.N_of_int n mod 1000).
  assert (Hr : r < 1000) by (apply N.mod_lt; lia).
  unfold rng. rewrite (rem_1000 x n H).
  rewrite (rem_1000 _ _ (safe_integer_number r ltac:(lia))).
  rewrite N_of_int_of_N by int_lia. fold r. now rewrite (N.mod_small r 1000).
Qed.

Lemma room_residue (x : float) (n : int) :
  JS.safe_integer x = Some n ->
  room x = room (JS.number_of_N (JS.N_of_int n mod 1000)).
Proof. intros H. unfold room. now rewrite (rng_residue x n _ _ H). Qed.

Lemma rooms_residue (x : float) (n : int) (count : nat) :
  JS.safe_integer x = Some n ->
  rooms x count = rooms (JS.number_of_N (JS.N_of_int n mod 1000)) count.
Proof.
  intros H. induction count as [| count IH]; [reflexivity |].
  cbn [rooms]. now rewrite (room_residue x n H), IH.
Qed.

Lemma rows_residue (x : float) (n : int) (size count : nat) :
  JS.safe_integer x = Some n ->
  rows x size count = rows (JS.number_of_N (JS.N_of_int n mod 1000)) size count.
Proof.
  intros H. induction count as [| count IH]; [reflexivity |].
  cbn [rows]. now rewrite (rooms_residue x n size H), IH.
Qed.

Lemma dungeon_of_seed_residue (x : float) (n : int) :
  JS.safe_integer x = Some n ->
  dungeon_of_seed x = dungeon_of_seed (JS.number_of_N (JS.N_of_int n mod 1000)).
Proof.
  intros H. unfold dungeon_of_seed. rewrite !(rng_residue x n _ _ H).
  destruct (rng _ 5%float 3%float) as [size |]; [| reflexivity].
  destruct (JS.safe_integer size) as [k |]; [| reflexivity].
  now rewrite (rows_residue x n _ _ H).
Qed.

Lemma strings_eqb_eq (l l' : list string) : strings_eqb l l' = true -> l = l'.
Proof.
  revert l'. induction l as [| s l IH]; intros [| s' l'] H; try discriminate;
    [reflexivity |].
  cbn [strings_eqb] in H. apply andb_true_iff in H. destruct H as [H1 H2].
  apply String.eqb_eq in H1. subst. f_equal. now apply IH.
Qed.

(** The thousand residues, one by one. *)
Lemma dungeon_of_seed_below (r : N) :
  r < 1000 -> dungeon_of_seed (JS.number_of_N r) = dungeon_of_residue r.
Proof.
  intros Hr.
  assert (H : below 1000 residue_dungeon = true) by (vm_compute; reflexivity).
  pose proof (below_spec 1000 _ ltac:(reflexivity) H r Hr) as Hc. clear H.
  unfold residue_dungeon in Hc. rewrite N_of_int_of_N in Hc by int_lia.
  unfold JS.number_of_N.
  destruct (dungeon_of_seed (PrimFloat.of_uint63 (JS.int_of_N r))) as [[l m t] |];
    [| discriminate].
  destruct (dungeon_of_residue r) as [[l' m' t'] |]; [| discriminate].
  cbn [layout monsters treasures] in Hc.
  apply andb_true_iff in Hc. destruct Hc as [Hc Ht].
  apply andb_true_iff in Hc. destruct Hc as [Hl Hm].
  apply strings_eqb_eq in Hl. apply FloatAxioms.Leibniz.eqb_spec in Hm, Ht.
  now subst.
Qed.

Lemma generateDungeon_residue (encryptedData : string) (x : float) (n : int) :
  FHEDecryptNumber encryptedData = Some x -> JS.safe_integer x = Some n ->
  generateDungeon encryptedData = dungeon_of_residue (JS.N_of_int n mod 1000).
Proof.
  intros Hd Hn. unfold generateDungeon. rewrite Hd.
  rewrite (dungeon_of_seed_residue x n Hn). apply dungeon_of_seed_below.
  apply N.mod_lt. lia.
Qed.

Lemma roomTypes_at (r : N) :
  r < 1000 -> exists room, nth_error roomTypes (N.to_nat (r * 5 / 1000)) = Some room.
Proof.
  intros Hr.
  destruct (nth_error roomTypes (N.to_nat (r * 5 / 1000))) as [room |] eqn:E;
    [now exists room |].
  apply List.nth_error_None in E. cbn [roomTypes length] in E.
  assert (r * 5 / 1000 < 5) by div_lia. lia.
Qed.

End Dungeons.



(** X18. The dungeon of a party does not depend on its strength, nor on the
    tens of its agility: two parties with attributes below 100 that agree
    on the intelligence and on the last digit of the agility are given the
    same dungeon by [generateDungeon], whatever their strengths. *)
Theorem dungeon_ignores_strength (s a i s' a' : N) :
  s < 100 -> a < 100 -> i < 100 -> s' < 100 -> a' < 100 ->
  a mod 10 = a' mod 10 ->
  exists encrypted encrypted' dungeon,
    FHEEncryptNumber
      (combineAttributes (JS.number_of_N s) (JS.number_of_N a) (JS.number_of_N i))
    = Some encrypted /\
    FHEEncryptNumber
      (combineAttributes (JS.number_of_N s') (JS.number_of_N a') (JS.number_of_N i))
    = Some encrypted' /\
    generateDungeon encrypted = Some dungeon /\
    generateDungeon encrypted' = Some dungeon.
Proof.
  intros Hs Ha Hi Hs' Ha' Hmod.
  set (c := s * 10000 + a * 100 + i). set (c' := s' * 10000 + a' * 100 + i).
  assert (Hc : c < 1000000) by (unfold c; lia).
  assert (Hc' : c' < 1000000) by (unfold c'; lia).
  assert (Hres : c mod 1000 = c' mod 1000) by (unfold c, c'; div_lia).
  rewrite !combineAttributes_exact by assumption. fold c c'.
  pose proof (safe_integer_number c Hc) as Hn.
  pose proof (safe_integer_number c' Hc') as Hn'.
  assert (Hr : c mod 1000 < 1000) by (apply N.mod_lt; lia).
  destruct (roomTypes_at _ Hr) as [room Hroom].
  eexists _, _, _.
  split; [apply FHEEncryptNumber_safe, Hn |].
  split; [apply FHEEncryptNumber_safe, Hn' |].
  rewrite !N_of_int_of_N by int_lia.
  rewrite (generateDungeon_residue _ _ _ (FHEDecryptNumber_encoding c ltac:(int_lia)) Hn).
  rewrite (generateDungeon_residue _ _ _ (FHEDecryptNumber_encoding c' ltac:(int_lia)) Hn').
  rewrite !N_of_int_of_N by int_lia. rewrite <- Hres.
  unfold dungeon_of_residue. rewrite Hroom. split; reflexivity.
Qed.

Lemma dungeon_ignores_strength_witness :
  exists encrypted encrypted' dungeon,
    FHEEncryptNumber (combineAttributes 5%float 3%float 4%float) = Some encrypted /\
    FHEEncryptNumber (combineAttributes 99%float 13%float 4%float) = Some encrypted' /\
    generateDungeon encrypted = Some dungeon /\
    generateDungeon encrypted' = Some dungeon.
Proof.
  exact (dungeon_ignores_strength 5 3 4 99 13 ltac:(reflexivity) ltac:(reflexivity)
           ltac:(reflexivity) ltac:(reflexivity) ltac:(reflexivity)
           ltac:(reflexivity)).
Defined.
